(** * MySportsFeeds API client: a shallow embedding and its properties

    The development follows [lib/my-sports-feeds-api/api-base.js] (class
    [ApiBase] and the helper [_generateAuthHeader]) and
    [lib/my-sports-feeds-api/mlb-api.js] (class [MlbApi], and the earlier
    [ApiBase] with [fullGameSchedule] and [dailyGameSchedule] that the same
    file carries).

    JavaScript strings are modelled as [string], read as the UTF-8 bytes of the
    text (what [new Buffer(s)] and [querystring.escape] work on); options are
    plain objects whose values are primitives, numbers being safe integers.  The
    libraries the client calls ([precond], [querystring], [moment], [Buffer],
    [superagent]) are modelled by the part of their behaviour the client
    relies on. *)

From Stdlib Require Import String Ascii List Bool ZArith NArith Arith Lia.
From Stdlib Require Import DecimalString.
Import ListNotations.

Local Open Scope string_scope.

(** ** JavaScript values and objects *)

(** The integers a number prints digit for digit: those of absolute value at
    most [Number.MAX_SAFE_INTEGER] (2^53 - 1).  Beyond them a number is
    rounded, and from 1e21 on printed with an exponent. *)
Definition MAX_SAFE_INTEGER : Z := 9007199254740991.

Definition isSafeInteger (z : Z) : bool := (Z.abs z <=? MAX_SAFE_INTEGER)%Z.

Record SafeInteger : Type :=
  mkSafeInteger { integer : Z; integer_safe : isSafeInteger integer = true }.

(** The values an option or a credential may hold: the primitives, with the
    safe integers for numbers. *)
Inductive JsValue : Type :=
  | VUndefined
  | VNull
  | VBool (b : bool)
  | VNum (n : SafeInteger)
  | VStr (s : string).

(** The number [z], for a literal in the safe range. *)
Abbreviation VInt z := (VNum (mkSafeInteger z eq_refl)) (only parsing).

(** [typeof v === 'string'] *)
Definition isString (v : JsValue) : bool :=
  match v with VStr _ => true | _ => false end.

(** ToBoolean: [undefined], [null], [false], [0] and the empty string are
    falsy. *)
Definition truthy (v : JsValue) : bool :=
  match v with
  | VUndefined | VNull => false
  | VBool b => b
  | VNum n => negb (integer n =? 0)%Z
  | VStr s => negb (s =? EmptyString)
  end.

(** [a || b] *)
Definition js_or (a b : JsValue) : JsValue := if truthy a then a else b.

(** ToString, as a template literal applies it to [${v}]. *)
Definition toString (v : JsValue) : string :=
  match v with
  | VUndefined => "undefined"
  | VNull => "null"
  | VBool true => "true"
  | VBool false => "false"
  | VNum n => NilZero.string_of_int (Z.to_int (integer n))
  | VStr s => s
  end.

(** An object is the list of its own enumerable properties in enumeration
    order; a key occurs at most once. *)
Definition JsObject : Type := list (string * JsValue).

(** [o[k]]: [undefined] when the key is absent. *)
Fixpoint lookup (k : string) (o : JsObject) : option JsValue :=
  match o with
  | [] => None
  | (k', v) :: o' => if k' =? k then Some v else lookup k o'
  end.

Definition get (k : string) (o : JsObject) : JsValue :=
  match lookup k o with Some v => v | None => VUndefined end.

(** [delete o[k]] *)
Fixpoint delete (k : string) (o : JsObject) : JsObject :=
  match o with
  | [] => []
  | (k', v) :: o' => if k' =? k then delete k o' else (k', v) :: delete k o'
  end.

(** [Object.keys(o)] *)
Definition Object_keys (o : JsObject) : list string := map fst o.

(** ** Buffer.toString('base64') *)

Module Base64.

Definition alphabet : string :=
  "ABCDEFGHIJKLMNOPQRSTUVWXYZabcdefghijklmnopqrstuvwxyz0123456789+/".

(** The character of a 6-bit group. *)
Definition digit (n : N) : ascii :=
  match String.get (N.to_nat n) alphabet with
  | Some c => c
  | None => "="%char
  end.

(** The 6-bit group of a character. *)
Definition value (c : ascii) : option N :=
  let n := N_of_ascii c in
  if (65 <=? n)%N && (n <=? 90)%N then Some (n - 65)%N
  else if (97 <=? n)%N && (n <=? 122)%N then Some (n - 71)%N
  else if (48 <=? n)%N && (n <=? 57)%N then Some (n + 4)%N
  else if (n =? 43)%N then Some 62%N
  else if (n =? 47)%N then Some 63%N
  else None.

(** Three bytes give four characters; a final group of one or two bytes
    is padded with [=]. *)
Fixpoint encode (s : string) : string :=
  match s with
  | EmptyString => EmptyString
  | String a EmptyString =>
      let x := N_of_ascii a in
      String (digit (x / 4)) (String (digit ((x mod 4) * 16)) "==")
  | String a (String b EmptyString) =>
      let x := N_of_ascii a in
      let y := N_of_ascii b in
      String (digit (x / 4))
        (String (digit ((x mod 4) * 16 + y / 16))
           (String (digit ((y mod 16) * 4)) "="))
  | String a (String b (String c rest)) =>
      let x := N_of_ascii a in
      let y := N_of_ascii b in
      let z := N_of_ascii c in
      String (digit (x / 4))
        (String (digit ((x mod 4) * 16 + y / 16))
           (String (digit ((y mod 16) * 4 + z / 64))
              (String (digit (z mod 64)) (encode rest))))
  end.

(** The inverse reading, used to state that [encode] loses nothing. *)
Fixpoint decode (s : string) : option string :=
  match s with
  | EmptyString => Some EmptyString
  | String c1 (String c2 (String c3 (String c4 rest))) =>
      match value c1, value c2 with
      | Some p, Some q =>
          let a := ascii_of_N (p * 4 + q / 16) in
          if (c3 =? "=")%char then
            if (c4 =? "=")%char && (rest =? EmptyString)
            then Some (String a EmptyString) else None
          else
            match value c3 with
            | Some r =>
                let b := ascii_of_N ((q mod 16) * 16 + r / 4) in
                if (c4 =? "=")%char then
                  if rest =? EmptyString then Some (String a (String b EmptyString))
                  else None
                else
                  match value c4, decode rest with
                  | Some t, Some tl =>
                      Some (String a (String b
                              (String (ascii_of_N ((r mod 4) * 64 + t)) tl)))
                  | _, _ => None
                  end
            | None => None
            end
      | _, _ => None
      end
  | _ => None
  end.

End Base64.

(** ** querystring.stringify *)

Module querystring.

(** The characters [querystring.escape] leaves as they are:
    [A-Z a-z 0-9 - _ . ! ~ * ' ( )]. *)
Definition noEscape (c : ascii) : bool :=
  let n := N_of_ascii c in
  ((65 <=? n) && (n <=? 90) || (97 <=? n) && (n <=? 122)
   || (48 <=? n) && (n <=? 57)
   || (n =? 45) || (n =? 95) || (n =? 46) || (n =? 33) || (n =? 126)
   || (n =? 42) || (n =? 39) || (n =? 40) || (n =? 41))%N.

Definition hexDigit (n : N) : ascii :=
  match String.get (N.to_nat n) "0123456789ABCDEF" with
  | Some c => c
  | None => "0"%char
  end.

(** Every other byte becomes [%XX].  The bytes are those of well-formed
    text, which [querystring.escape] always encodes. *)
Fixpoint escape (s : string) : string :=
  match s with
  | EmptyString => EmptyString
  | String c rest =>
      if noEscape c then String c (escape rest)
      else
        let n := N_of_ascii c in
        String "%" (String (hexDigit (n / 16))
                      (String (hexDigit (n mod 16)) (escape rest)))
  end.

(** Strings, numbers and booleans are printed; anything else gives the
    empty string. *)
Definition stringifyPrimitive (v : JsValue) : string :=
  match v with
  | VStr s => s
  | VNum _ | VBool _ => toString v
  | VUndefined | VNull => EmptyString
  end.

(** [key=value] pairs in enumeration order, joined by [&]. *)
Definition stringify (o : JsObject) : string :=
  String.concat "&"
    (map (fun kv => escape (fst kv) ++ "=" ++ escape (stringifyPrimitive (snd kv))) o).

End querystring.

(** ** moment().format('YYYYMMDD') *)

Module moment.

(** A calendar date: the local date the clock shows. *)
Record Date : Type := mkDate { year : N; month : N; day : N }.

Definition digits (n : N) : string := NilZero.string_of_uint (N.to_uint n).

Fixpoint zeros (k : nat) : string :=
  match k with O => EmptyString | S k' => String "0" (zeros k') end.

(** [zeroFill(number, targetLength)] for a number that is not negative. *)
Definition zeroFill (n : N) (targetLength : nat) : string :=
  let absNumber := digits n in
  zeros (targetLength - String.length absNumber) ++ absNumber.

(** The tokens [YYYY], [MM] and [DD]. *)
Definition format_YYYYMMDD (d : Date) : string :=
  zeroFill (year d) 4 ++ zeroFill (month d) 2 ++ zeroFill (day d) 2.

End moment.

(** ** The world the client runs in *)

(** A parsed JSON body. *)
#[local] Unset Elimination Schemes.
Inductive Json : Type :=
  | JNull
  | JBool (b : bool)
  | JNum (z : Z)
  | JStr (s : string)
  | JArr (items : list Json)
  | JObj (fields : list (string * Json)).
#[local] Set Elimination Schemes.

(** The response object superagent resolves with. *)
Record Response : Type := mkResponse { status : Z; text : string; body : Json }.

(** What can be thrown or rejected with. *)
Inductive JsError : Type :=
  | IllegalArgumentError (message : option string)
  | RequestError (code : option Z) (message : string).

(** A request as superagent holds it before it is sent. *)
Record Request : Type :=
  mkRequest { method : string; url : string; headers : list (string * string) }.

(** [request.set(field, value)] *)
Definition set (field value : string) (r : Request) : Request :=
  mkRequest (method r) (url r) (headers r ++ [(field, value)]).

(** The promise of a sent request resolves with a response or rejects (network
    failure or a status that is not a success). *)
Inductive Settled : Type :=
  | Resolve (res : Response)
  | Reject (err : JsError).

(** What the client cannot decide: the answer of the network to a request and
    the date of the clock. *)
Record Env : Type := mkEnv { transport : Request -> Settled; today : moment.Date }.

(** A reference to an object of the heap. *)
Definition Ref : Type := nat.

(** The objects the caller and the client share, the requests sent so far
    (oldest first) and what was written to standard error. *)
Record World : Type :=
  mkWorld { heap : list JsObject; issued : list Request; stderr : list JsError }.

(** What a call hands back: a JSON value ([null] is [RJson JNull]) or a whole
    response object. *)
Inductive Returned : Type :=
  | RJson (j : Json)
  | RResponse (res : Response).

Definition null : Returned := RJson JNull.

(** A call returns or throws (for an [async] method: its promise is fulfilled
    or rejected). *)
Inductive Completion (A : Type) : Type :=
  | Return (a : A)
  | Throw (e : JsError).
Arguments Return {A} a.
Arguments Throw {A} e.

(** Computations of the client: they read the environment and change the
    world. *)
Definition M (A : Type) : Type := Env -> World -> Completion A * World.

Definition ret {A} (a : A) : M A := fun _ w => (Return a, w).

Definition bind {A B} (m : M A) (f : A -> M B) : M B :=
  fun env w =>
    match m env w with
    | (Return a, w') => f a env w'
    | (Throw e, w') => (Throw e, w')
    end.

Definition throw {A} (e : JsError) : M A := fun _ w => (Throw e, w).

Declare Scope js_scope.
Delimit Scope js_scope with js.
Notation "x <- m ;; k" := (bind m (fun x => k))
  (at level 61, m at next level, right associativity) : js_scope.
Notation "m ;;; k" := (bind m (fun _ => k))
  (at level 61, right associativity) : js_scope.
Local Open Scope js_scope.

(** *** The heap *)

Definition deref (l : Ref) (h : list JsObject) : JsObject := nth l h [].

Fixpoint store (l : Ref) (o : JsObject) (h : list JsObject) : list JsObject :=
  match h, l with
  | [], _ => []
  | _ :: h', O => o :: h'
  | x :: h', S l' => x :: store l' o h'
  end.

(** [{}]: a new empty object. *)
Definition new_object : M Ref :=
  fun _ w => (Return (length (heap w)),
              mkWorld (heap w ++ [[]]) (issued w) (stderr w)).

(** [options = {}] in a parameter list: the default is taken when the
    argument is left out.  The argument is left out or is a plain object of
    the heap; what is neither ([null], which makes the first property read
    throw a [TypeError]) is not in the model. *)
Definition default_object (arg : option Ref) : M Ref :=
  match arg with
  | Some l => ret l
  | None => new_object
  end.

(** [options.k] *)
Definition get_prop (l : Ref) (k : string) : M JsValue :=
  fun _ w => (Return (get k (deref l (heap w))), w).

(** [delete options.k], on a plain object: its properties can be deleted
    (a frozen object, on which strict code throws, is not in the model). *)
Definition delete_prop (l : Ref) (k : string) : M unit :=
  fun _ w => (Return tt,
              mkWorld (store l (delete k (deref l (heap w))) (heap w))
                      (issued w) (stderr w)).

(** [Object.keys(options)] *)
Definition keys (l : Ref) : M (list string) :=
  fun _ w => (Return (Object_keys (deref l (heap w))), w).

(** [querystring.stringify(options)] *)
Definition qs_stringify (l : Ref) : M string :=
  fun _ w => (Return (querystring.stringify (deref l (heap w))), w).

(** *** Libraries with effects *)

(** [precond.checkIsString(value, message)]: an [IllegalArgumentError] with
    the message unless the value is a string.  The constructor binds the
    result of the call to [apiKey] and [password], so the check hands back the
    value it was given. *)
Definition checkIsString (value : JsValue) (message : option string) : M JsValue :=
  if isString value then ret value else throw (IllegalArgumentError message).

(** [moment().format('YYYYMMDD')] *)
Definition moment_format_YYYYMMDD : M string :=
  fun env w => (Return (moment.format_YYYYMMDD (today env)), w).

(** [try { res = await req } catch (err) { ... }]: the request is sent and the
    outcome handed to the continuation, a rejection as the caught error. *)
Definition try_await (req : Request) : M (Response + JsError) :=
  fun env w =>
    let w' := mkWorld (heap w) (issued w ++ [req]) (stderr w) in
    match transport env req with
    | Resolve res => (Return (inl res), w')
    | Reject err => (Return (inr err), w')
    end.

(** [console.error(err)] *)
Definition console_error (err : JsError) : M unit :=
  fun _ w => (Return tt, mkWorld (heap w) (issued w) (stderr w ++ [err])).

(** ** api-base.js *)

Definition CURRENT : string := "current".
Definition AUTHORIZATION : string := "Authorization".
Definition GET : string := "GET".
Definition API_VERSION : string := "v2.1".

(** [request(method, url)] *)
Definition request (method url : string) : Request := mkRequest method url [].

Definition _generateAuthHeader (apiKey password : JsValue) : string :=
  let basicAuthString := toString apiKey ++ ":" ++ toString password in
  let base64AuthString := Base64.encode basicAuthString in
  "Basic " ++ base64AuthString.

(** The fields of an instance. *)
Record Client : Type :=
  mkClient { _authHeader : string; _baseUrl : string; _leaguePath : string }.

Definition _buildRequest (this : Client) (method url : string) : Request :=
  set AUTHORIZATION (_authHeader this) (request method url).

Definition _apiUrl (this : Client) (path : string) : string :=
  _baseUrl this ++ _leaguePath this ++ path.

(** The tail shared by the three methods: send, log a failure and return
    [null], or return the body. *)
Definition send_for_body (this : Client) (apiUrl : string) : M Returned :=
  r <- try_await (_buildRequest this GET apiUrl) ;;
  match r with
  | inr err => console_error err ;;; ret null
  | inl res => ret (RJson (body res))
  end.

(** [if (Object.keys(options).length !== 0) path += `?${...}`] *)
Definition add_query (options : Ref) (path : string) : M string :=
  ks <- keys options ;;
  if negb (length ks =? 0)%nat
  then (qs <- qs_stringify options ;; ret (path ++ "?" ++ qs))
  else ret path.

(** The message ["options.game" is a required parameter]. *)
Definition game_is_required : string :=
  String (ascii_of_nat 34) "options.game"
  ++ String (ascii_of_nat 34) " is a required parameter".

Module ApiBase.

Definition constructor (options : JsObject) : M Client :=
  apiKey <- checkIsString (get "apiKey" options) None ;;
  password <- checkIsString (get "password" options) None ;;
  ret (mkClient (_generateAuthHeader apiKey password)
                ("https://api.mysportsfeeds.com/" ++ API_VERSION ++ "/pull")
                EmptyString).

Definition seasonGames (this : Client) (arg : option Ref) : M Returned :=
  options <- default_object arg ;;
  v <- get_prop options "seasonName" ;;
  let seasonName := js_or v (VStr CURRENT) in
  delete_prop options "seasonName" ;;;
  path <- add_query options ("/" ++ toString seasonName ++ "/games.json") ;;
  let seasonGamesUrl := _apiUrl this path in
  send_for_body this seasonGamesUrl.

Definition dailyGames (this : Client) (arg : option Ref) : M Returned :=
  options <- default_object arg ;;
  v <- get_prop options "season" ;;
  let season := js_or v (VStr CURRENT) in
  delete_prop options "season" ;;;
  d <- get_prop options "date" ;;
  date <- (if truthy d then ret d
           else (s <- moment_format_YYYYMMDD ;; ret (VStr s))) ;;
  delete_prop options "date" ;;;
  path <- add_query options
            ("/" ++ toString season ++ "/date/" ++ toString date ++ "/games.json") ;;
  let dailyGamesUrl := _apiUrl this path in
  send_for_body this dailyGamesUrl.

Definition seasonalPlayerGamelogs (this : Client) (arg : option Ref) : M Returned :=
  options <- default_object arg ;;
  v <- get_prop options "season" ;;
  let season := js_or v (VStr CURRENT) in
  delete_prop options "season" ;;;
  g <- get_prop options "game" ;;
  checkIsString g (Some game_is_required) ;;;
  path <- add_query options ("/" ++ toString season ++ "/player_gamelogs.json") ;;
  let seasonalPlayerGamelogsUrl := _apiUrl this path in
  send_for_body this seasonalPlayerGamelogsUrl.

End ApiBase.

(** ** mlb-api.js *)

Module MlbApi.

(** [super(options); this._leaguePath = '/mlb'] *)
Definition constructor (options : JsObject) : M Client :=
  this <- ApiBase.constructor options ;;
  ret (mkClient (_authHeader this) (_baseUrl this) "/mlb").

(** The methods are inherited. *)
Definition seasonGames := ApiBase.seasonGames.
Definition dailyGames := ApiBase.dailyGames.
Definition seasonalPlayerGamelogs := ApiBase.seasonalPlayerGamelogs.

End MlbApi.

(** The earlier [ApiBase] of mlb-api.js, for version 1.2 of the remote API. *)
Module ApiBase_v1_2.

Definition constructor (options : JsObject) : M Client :=
  apiKey <- checkIsString (get "apiKey" options) None ;;
  password <- checkIsString (get "password" options) None ;;
  ret (mkClient (_generateAuthHeader apiKey password)
                "https://api.mysportsfeeds.com/v1.2/pull"
                EmptyString).

(** [request.get(url)] *)
Definition request_get (url : string) : Request := request GET url.

(** The tail shared by the two methods: send, log a failure and return
    [null], or return [res]. *)
Definition send_for_response (this : Client) (apiUrl : string) : M Returned :=
  r <- try_await (set AUTHORIZATION (_authHeader this) (request_get apiUrl)) ;;
  match r with
  | inr err => console_error err ;;; ret null
  | inl res => ret (RResponse res)
  end.

Definition fullGameSchedule (this : Client) (arg : option Ref) : M Returned :=
  options <- default_object arg ;;
  v <- get_prop options "seasonName" ;;
  let seasonName := js_or v (VStr CURRENT) in
  let fullGameScheduleUrl :=
    _apiUrl this ("/" ++ toString seasonName ++ "/full_game_schedule.json") in
  send_for_response this fullGameScheduleUrl.

Definition dailyGameSchedule (this : Client) (arg : option Ref) : M Returned :=
  options <- default_object arg ;;
  v <- get_prop options "seasonName" ;;
  let seasonName := js_or v (VStr CURRENT) in
  d <- get_prop options "forDate" ;;
  forDate <- (if truthy d then ret d
              else (s <- moment_format_YYYYMMDD ;; ret (VStr s))) ;;
  let dailyGameScheduleUrl :=
    _apiUrl this (toString seasonName ++ "/daily_game_schedule.json?forDate="
                  ++ toString forDate) in
  send_for_response this dailyGameScheduleUrl.

End ApiBase_v1_2.

(** ** The operations, by name *)

(** The request operations of the client of api-base.js (and so of [MlbApi]). *)
Inductive Operation : Type := SeasonGames | DailyGames | SeasonalPlayerGamelogs.

Definition call (op : Operation) : Client -> option Ref -> M Returned :=
  match op with
  | SeasonGames => ApiBase.seasonGames
  | DailyGames => ApiBase.dailyGames
  | SeasonalPlayerGamelogs => ApiBase.seasonalPlayerGamelogs
  end.

(** The same operations, as [MlbApi] inherits them. *)
Definition call_mlb (op : Operation) : Client -> option Ref -> M Returned :=
  match op with
  | SeasonGames => MlbApi.seasonGames
  | DailyGames => MlbApi.dailyGames
  | SeasonalPlayerGamelogs => MlbApi.seasonalPlayerGamelogs
  end.

(** The request operations of the earlier client. *)
Inductive Operation_v1_2 : Type := FullGameSchedule | DailyGameSchedule.

Definition call_v1_2 (op : Operation_v1_2) : Client -> option Ref -> M Returned :=
  match op with
  | FullGameSchedule => ApiBase_v1_2.fullGameSchedule
  | DailyGameSchedule => ApiBase_v1_2.dailyGameSchedule
  end.

(** Every request operation of the repository. *)
Inductive AnyOperation : Type :=
  | Current (op : Operation)
  | Earlier (op : Operation_v1_2).

Definition call_any (op : AnyOperation) : Client -> option Ref -> M Returned :=
  match op with
  | Current o => call o
  | Earlier o => call_v1_2 o
  end.

(** ** The path each method computes

    Each method of api-base.js first computes a path from its options, which
    does not involve the instance, and then sends one request to
    [_apiUrl(path)]. *)

Definition seasonGames_path (arg : option Ref) : M string :=
  options <- default_object arg ;;
  v <- get_prop options "seasonName" ;;
  let seasonName := js_or v (VStr CURRENT) in
  delete_prop options "seasonName" ;;;
  add_query options ("/" ++ toString seasonName ++ "/games.json").

Definition dailyGames_path (arg : option Ref) : M string :=
  options <- default_object arg ;;
  v <- get_prop options "season" ;;
  let season := js_or v (VStr CURRENT) in
  delete_prop options "season" ;;;
  d <- get_prop options "date" ;;
  date <- (if truthy d then ret d
           else (s <- moment_format_YYYYMMDD ;; ret (VStr s))) ;;
  delete_prop options "date" ;;;
  add_query options
    ("/" ++ toString season ++ "/date/" ++ toString date ++ "/games.json").

Definition seasonalPlayerGamelogs_path (arg : option Ref) : M string :=
  options <- default_object arg ;;
  v <- get_prop options "season" ;;
  let season := js_or v (VStr CURRENT) in
  delete_prop options "season" ;;;
  g <- get_prop options "game" ;;
  checkIsString g (Some game_is_required) ;;;
  add_query options ("/" ++ toString season ++ "/player_gamelogs.json").

Definition path_of (op : Operation) : option Ref -> M string :=
  match op with
  | SeasonGames => seasonGames_path
  | DailyGames => dailyGames_path
  | SeasonalPlayerGamelogs => seasonalPlayerGamelogs_path
  end.

(** The request a client sends for a path. *)
Definition request_for (this : Client) (path : string) : Request :=
  mkRequest GET (_apiUrl this path) [(AUTHORIZATION, _authHeader this)].

(** ** Vocabulary of the statements *)

(** The classes of the repository. *)
Inductive ClientClass : Type := ApiBaseClass | MlbApiClass | ApiBaseClass_v1_2.

Definition construct (cls : ClientClass) : JsObject -> M Client :=
  match cls with
  | ApiBaseClass => ApiBase.constructor
  | MlbApiClass => MlbApi.constructor
  | ApiBaseClass_v1_2 => ApiBase_v1_2.constructor
  end.

(** The base URL and the league path each class sets. *)
Definition baseUrl_of (cls : ClientClass) : string :=
  match cls with
  | ApiBaseClass | MlbApiClass => "https://api.mysportsfeeds.com/v2.1/pull"
  | ApiBaseClass_v1_2 => "https://api.mysportsfeeds.com/v1.2/pull"
  end.

Definition leaguePath_of (cls : ClientClass) : string :=
  match cls with
  | MlbApiClass => "/mlb"
  | ApiBaseClass | ApiBaseClass_v1_2 => EmptyString
  end.

(** The object a call works on: the caller's, or the empty default. *)
Definition options_of (arg : option Ref) (w : World) : JsObject :=
  match arg with
  | Some l => deref l (heap w)
  | None => []
  end.

(** The query part of a path: nothing for an object without keys. *)
Definition query (o : JsObject) : string :=
  if negb (length (Object_keys o) =? 0)%nat
  then "?" ++ querystring.stringify o
  else EmptyString.

(** The reference a call works on and the world once the default object, if
    any, is made. *)
Definition enter (arg : option Ref) (w : World) : Ref * World :=
  match arg with
  | Some l => (l, w)
  | None => (length (heap w), mkWorld (heap w ++ [[]]) (issued w) (stderr w))
  end.

(** The world with the object at [l] replaced by its image under [f]. *)
Definition mutate (l : Ref) (f : JsObject -> JsObject) (w : World) : World :=
  mkWorld (store l (f (deref l (heap w))) (heap w)) (issued w) (stderr w).

(** The value a successful call hands back, by generation of the client. *)
Definition on_success (op : AnyOperation) (res : Response) : Returned :=
  match op with
  | Current _ => RJson (body res)
  | Earlier _ => RResponse res
  end.

(** What a call did: it threw before sending, or sent one request. *)
Inductive Ran (this : Client) (env : Env) (w : World) (op : AnyOperation) :
  Completion Returned * World -> Prop :=
  | Ran_threw (e : JsError) (w' : World) :
      issued w' = issued w -> stderr w' = stderr w ->
      op = Current SeasonalPlayerGamelogs ->
      Ran this env w op (Throw e, w')
  | Ran_resolved (u : string) (res : Response) (w' : World) :
      transport env (mkRequest GET u [(AUTHORIZATION, _authHeader this)]) = Resolve res ->
      issued w' = (issued w ++ [mkRequest GET u [(AUTHORIZATION, _authHeader this)]])%list ->
      stderr w' = stderr w ->
      Ran this env w op (Return (on_success op res), w')
  | Ran_rejected (u : string) (err : JsError) (w' : World) :
      transport env (mkRequest GET u [(AUTHORIZATION, _authHeader this)]) = Reject err ->
      issued w' = (issued w ++ [mkRequest GET u [(AUTHORIZATION, _authHeader this)]])%list ->
      stderr w' = (stderr w ++ [err])%list ->
      Ran this env w op (Return null, w').

(** The path of an operation with [season] in the season position and [rest]
    after it. *)
Definition path_with_season (op : AnyOperation) (season rest : string) : string :=
  match op with
  | Earlier DailyGameSchedule => season ++ rest
  | _ => "/" ++ season ++ rest
  end.

(** An instance with another league path. *)
Definition with_leaguePath (leaguePath : string) (this : Client) : Client :=
  mkClient (_authHeader this) (_baseUrl this) leaguePath.

Definition sample_client_v1_2 : Client :=
  mkClient "Basic a2V5OnNlY3JldA==" "https://api.mysportsfeeds.com/v1.2/pull" EmptyString.

(** The option in which each operation looks for the season. *)
Definition season_key (op : AnyOperation) : string :=
  match op with
  | Current SeasonGames => "seasonName"
  | Current DailyGames => "season"
  | Current SeasonalPlayerGamelogs => "season"
  | Earlier _ => "seasonName"
  end.

(** The keys an operation deletes from its options. *)
Definition deleted_keys (op : Operation) : list string :=
  match op with
  | SeasonGames => ["seasonName"]
  | DailyGames => ["season"; "date"]
  | SeasonalPlayerGamelogs => ["season"]
  end.

Definition mem (k : string) (ks : list string) : bool :=
  existsb (String.eqb k) ks.

(** [s] begins with [p]. *)
Definition starts_with (p s : string) : bool := String.prefix p s.

(** ** lib/config.js *)

(** [process.env]: a variable is a string or is not set. *)
Definition ProcessEnv : Type := string -> option string.

(** [process.env.NAME] *)
Definition env_var (penv : ProcessEnv) (name : string) : JsValue :=
  match penv name with
  | Some s => VStr s
  | None => VUndefined
  end.

Module config.

(** The configuration object; its one field is the options of a client. *)
Record Config : Type := mkConfig { mySportsFeeds : JsObject }.

Definition newInstance (penv : ProcessEnv) : Config :=
  mkConfig [("apiKey", env_var penv "MSF_API_KEY");
            ("password", env_var penv "MSF_API_PASSWORD")].

End config.

(** ** Vocabulary of the further statements *)

(** The value an option contributes to the path: itself when truthy, the
    default otherwise. *)
Definition option_or (k : string) (o : JsObject) (default : string) : string :=
  toString (js_or (get k o) (VStr default)).

(** The path of an operation of api-base.js before the query, for the options
    [o] as the call finds them and the date [date] of the clock. *)
Definition stem (op : Operation) (o : JsObject) (date : moment.Date) : string :=
  match op with
  | SeasonGames => "/" ++ option_or "seasonName" o CURRENT ++ "/games.json"
  | DailyGames =>
      "/" ++ option_or "season" o CURRENT ++ "/date/"
      ++ option_or "date" o (moment.format_YYYYMMDD date) ++ "/games.json"
  | SeasonalPlayerGamelogs =>
      "/" ++ option_or "season" o CURRENT ++ "/player_gamelogs.json"
  end.

(** The options once the keys of the operation are deleted. *)
Definition remaining (op : Operation) (o : JsObject) : JsObject :=
  fold_left (fun o' k => delete k o') (deleted_keys op) o.

(** Every character of [s] satisfies [p]. *)
Fixpoint string_forall (p : ascii -> bool) (s : string) : bool :=
  match s with
  | EmptyString => true
  | String c s' => p c && string_forall p s'
  end.

(** [c] occurs in [s]. *)
Fixpoint occurs (c : ascii) (s : string) : bool :=
  match s with
  | EmptyString => false
  | String c' s' => (c' =? c)%char || occurs c s'
  end.

(** The characters of a base64 text: the alphabet and the padding. *)
Definition base64_char (c : ascii) : bool := occurs c Base64.alphabet || (c =? "=")%char.



(** ** Sample inputs *)

Definition sample_credentials : JsObject :=
  [("apiKey", VStr "key"); ("password", VStr "secret")].

Definition sample_response : Response :=
  mkResponse 200 "{}" (JObj [("games", JArr [])]).

Definition answering (s : Settled) : Env :=
  mkEnv (fun _ => s) (moment.mkDate 2019 9 24).

Definition empty_world : World := mkWorld [] [] [].

Definition sample_client : Client :=
  mkClient "Basic a2V5OnNlY3JldA==" "https://api.mysportsfeeds.com/v2.1/pull" "/mlb".

(** * Properties *)

(** ** Sample runs of the model *)

Example base64_Man : Base64.encode "Man" = "TWFu".
Proof. reflexivity. Qed.

Example base64_Ma : Base64.encode "Ma" = "TWE=".
Proof. reflexivity. Qed.

Example base64_M : Base64.encode "M" = "TQ==".
Proof. reflexivity. Qed.

Example base64_user_pass : Base64.encode "user:pass" = "dXNlcjpwYXNz".
Proof. reflexivity. Qed.

Example base64_decode_user_pass :
  Base64.decode "dXNlcjpwYXNz" = Some "user:pass".
Proof. reflexivity. Qed.

Example toString_num : toString (VInt 20190924) = "20190924".
Proof. reflexivity. Qed.

Example toString_neg : toString (VInt (-7)) = "-7".
Proof. reflexivity. Qed.

Example stringify_game :
  querystring.stringify [("game", VStr "20190924-NYY-TB")] = "game=20190924-NYY-TB".
Proof. reflexivity. Qed.

Example stringify_two :
  querystring.stringify [("team", VStr "new york"); ("force", VBool true)]
  = "team=new%20york&force=true".
Proof. reflexivity. Qed.

Example format_date :
  moment.format_YYYYMMDD (moment.mkDate 2019 9 24) = "20190924".
Proof. reflexivity. Qed.

Example format_date_pad :
  moment.format_YYYYMMDD (moment.mkDate 2026 1 3) = "20260103".
Proof. reflexivity. Qed.

Example construct_mlb :
  MlbApi.constructor sample_credentials (answering (Resolve sample_response)) empty_world
  = (Return sample_client, empty_world).
Proof. reflexivity. Qed.

Example run_gamelogs :
  MlbApi.seasonalPlayerGamelogs sample_client (Some 0)
    (answering (Resolve sample_response))
    (mkWorld [[("game", VStr "20190924-NYY-TB")]] [] [])
  = (Return (RJson (JObj [("games", JArr [])])),
     mkWorld [[("game", VStr "20190924-NYY-TB")]]
       [mkRequest "GET"
          "https://api.mysportsfeeds.com/v2.1/pull/mlb/current/player_gamelogs.json?game=20190924-NYY-TB"
          [("Authorization", "Basic a2V5OnNlY3JldA==")]]
       []).
Proof. reflexivity. Qed.

Example run_dailyGames_default :
  ApiBase.dailyGames sample_client None
    (answering (Reject (RequestError (Some 503%Z) "Service Unavailable")))
    empty_world
  = (Return null,
     mkWorld [[]]
       [mkRequest "GET"
          "https://api.mysportsfeeds.com/v2.1/pull/mlb/current/date/20190924/games.json"
          [("Authorization", "Basic a2V5OnNlY3JldA==")]]
       [RequestError (Some 503%Z) "Service Unavailable"]).
Proof. reflexivity. Qed.

(** ** Objects and the heap *)

Section Objects.

Variable k : string.

Lemma lookup_delete_same (o : JsObject) : lookup k (delete k o) = None.
Proof.
  induction o as [| [k' v] o IH]; simpl; [reflexivity |].
  destruct (k' =? k) eqn:E; [exact IH |].
  simpl. rewrite E. exact IH.
Qed.

Lemma lookup_delete_other (k' : string) (o : JsObject) :
  k' <> k -> lookup k' (delete k o) = lookup k' o.
Proof.
  intros Hne. induction o as [| [k0 v] o IH]; simpl; [reflexivity |].
  destruct (k0 =? k) eqn:E.
  - apply String.eqb_eq in E. subst k0.
    destruct (k =? k') eqn:E'; [| exact IH].
    apply String.eqb_eq in E'. congruence.
  - simpl. destruct (k0 =? k'); [reflexivity | exact IH].
Qed.

Lemma get_delete_other (k' : string) (o : JsObject) :
  k' <> k -> get k' (delete k o) = get k' o.
Proof. intros H. unfold get. rewrite lookup_delete_other by exact H. reflexivity. Qed.


End Objects.

Lemma length_store (l : Ref) (o : JsObject) (h : list JsObject) :
  length (store l o h) = length h.
Proof.
  revert l. induction h as [| x h IH]; intros [| l]; simpl; auto.
Qed.

Lemma deref_store_same (l : Ref) (o : JsObject) (h : list JsObject) :
  l < length h -> deref l (store l o h) = o.
Proof.
  unfold deref. revert l. induction h as [| x h IH]; intros [| l] H; simpl in *;
    try lia; [reflexivity | apply IH; lia].
Qed.

Lemma deref_store_other (l l' : Ref) (o : JsObject) (h : list JsObject) :
  l' <> l -> deref l' (store l o h) = deref l' h.
Proof.
  unfold deref. revert l l'.
  induction h as [| x h IH]; intros [| l] [| l'] H; simpl; try reflexivity;
    try congruence.
  apply IH. congruence.
Qed.

Lemma store_dangling (l : Ref) (o : JsObject) (h : list JsObject) :
  length h <= l -> store l o h = h.
Proof.
  revert l. induction h as [| x h IH]; intros [| l] H; simpl in *;
    try reflexivity; try lia.
  rewrite IH by lia. reflexivity.
Qed.

Lemma deref_dangling (l : Ref) (h : list JsObject) : length h <= l -> deref l h = [].
Proof. intros H. unfold deref. apply nth_overflow. exact H. Qed.

Lemma deref_fresh (h : list JsObject) : deref (length h) (h ++ [[]]) = [].
Proof. unfold deref. rewrite app_nth2, Nat.sub_diag by lia. reflexivity. Qed.

Lemma deref_extend (l : Ref) (h : list JsObject) : deref l (h ++ [[]]) = deref l h.
Proof.
  unfold deref. destruct (Nat.lt_ge_cases l (length h)) as [H | H].
  - apply app_nth1. exact H.
  - rewrite (nth_overflow h) by exact H.
    destruct (Nat.eq_dec l (length h)) as [-> | Hne].
    + rewrite app_nth2, Nat.sub_diag by lia. reflexivity.
    + apply nth_overflow. rewrite length_app. simpl. lia.
Qed.

(** ** How a call runs *)

(** Sending: one request, and the result decided by the answer. *)
Lemma send_for_body_run (this : Client) (u : string) (env : Env) (w : World) :
  send_for_body this u env w =
  let req := mkRequest GET u [(AUTHORIZATION, _authHeader this)] in
  match transport env req with
  | Resolve res =>
      (Return (RJson (body res)), mkWorld (heap w) (issued w ++ [req]) (stderr w))
  | Reject err =>
      (Return null, mkWorld (heap w) (issued w ++ [req]) (stderr w ++ [err]))
  end.
Proof.
  unfold send_for_body, bind, try_await, _buildRequest, set, request. simpl.
  destruct (transport env _); reflexivity.
Qed.

Lemma send_for_response_run (this : Client) (u : string) (env : Env) (w : World) :
  ApiBase_v1_2.send_for_response this u env w =
  let req := mkRequest GET u [(AUTHORIZATION, _authHeader this)] in
  match transport env req with
  | Resolve res =>
      (Return (RResponse res), mkWorld (heap w) (issued w ++ [req]) (stderr w))
  | Reject err =>
      (Return null, mkWorld (heap w) (issued w ++ [req]) (stderr w ++ [err]))
  end.
Proof.
  unfold ApiBase_v1_2.send_for_response, ApiBase_v1_2.request_get, bind, try_await,
    set, request. simpl.
  destruct (transport env _); reflexivity.
Qed.

(** Each method is its path computation followed by the sending. *)
Lemma call_factor (op : Operation) (this : Client) (arg : option Ref)
      (env : Env) (w : World) :
  call op this arg env w =
  (path <- path_of op arg ;; send_for_body this (_apiUrl this path)) env w.
Proof.
  destruct op; simpl;
    unfold ApiBase.seasonGames, ApiBase.dailyGames, ApiBase.seasonalPlayerGamelogs,
      seasonGames_path, dailyGames_path, seasonalPlayerGamelogs_path, bind.
  - destruct (default_object arg env w) as [[options | e] w1]; [| reflexivity].
    destruct (get_prop options "seasonName" env w1) as [[v | e] w2]; [| reflexivity].
    destruct (delete_prop options "seasonName" env w2) as [[[] | e] w3]; [| reflexivity].
    destruct (add_query options _ env w3) as [[path | e] w4]; reflexivity.
  - destruct (default_object arg env w) as [[options | e] w1]; [| reflexivity].
    destruct (get_prop options "season" env w1) as [[v | e] w2]; [| reflexivity].
    destruct (delete_prop options "season" env w2) as [[[] | e] w3]; [| reflexivity].
    destruct (get_prop options "date" env w3) as [[d | e] w4]; [| reflexivity].
    match goal with
    | |- context [match ?m env w4 with _ => _ end] =>
        destruct (m env w4) as [[date | e] w5]; [| reflexivity]
    end.
    destruct (delete_prop options "date" env w5) as [[[] | e] w6]; [| reflexivity].
    destruct (add_query options _ env w6) as [[path | e] w7]; reflexivity.
  - destruct (default_object arg env w) as [[options | e] w1]; [| reflexivity].
    destruct (get_prop options "season" env w1) as [[v | e] w2]; [| reflexivity].
    destruct (delete_prop options "season" env w2) as [[[] | e] w3]; [| reflexivity].
    destruct (get_prop options "game" env w3) as [[g | e] w4]; [| reflexivity].
    destruct (checkIsString g _ env w4) as [[g' | e] w5]; [| reflexivity].
    destruct (add_query options _ env w5) as [[path | e] w6]; reflexivity.
Qed.

(** ** Strings *)

Lemma append_nil_r (s : string) : s ++ EmptyString = s.
Proof. induction s as [| c s IH]; simpl; [reflexivity | rewrite IH; reflexivity]. Qed.

Lemma append_assoc (a b c : string) : (a ++ b) ++ c = a ++ (b ++ c).
Proof. induction a as [| x a IH]; simpl; [reflexivity | rewrite IH; reflexivity]. Qed.

Lemma length_append (a b : string) :
  String.length (a ++ b) = String.length a + String.length b.
Proof. induction a as [| x a IH]; simpl; [reflexivity | rewrite IH; reflexivity]. Qed.

Lemma append_inv_head (a b c : string) : a ++ b = a ++ c -> b = c.
Proof.
  induction a as [| x a IH]; simpl; intros H; [exact H |].
  injection H as H. exact (IH H).
Qed.

Lemma starts_with_append (p s : string) : starts_with p (p ++ s) = true.
Proof.
  unfold starts_with. induction p as [| c p IH]; simpl.
  - destruct s; reflexivity.
  - destruct (ascii_dec c c) as [_ | N]; [exact IH | congruence].
Qed.

Lemma starts_with_slash (a b : string) : starts_with "/" (("/" ++ a) ++ b) = true.
Proof. exact (starts_with_append "/" (a ++ b)). Qed.

(** ** The path computations, run *)

Lemma add_query_run (l : Ref) (path : string) (env : Env) (w : World) :
  add_query l path env w = (Return (path ++ query (deref l (heap w))), w).
Proof.
  unfold add_query, bind, keys, qs_stringify, ret, query.
  destruct (negb _); [reflexivity | rewrite append_nil_r; reflexivity].
Qed.

Lemma seasonGames_path_run (arg : option Ref) (env : Env) (w : World) :
  let l := fst (enter arg w) in
  let w1 := snd (enter arg w) in
  let seasonName := js_or (get "seasonName" (deref l (heap w1))) (VStr CURRENT) in
  let w2 := mutate l (delete "seasonName") w1 in
  seasonGames_path arg env w =
  (Return (("/" ++ toString seasonName ++ "/games.json") ++ query (deref l (heap w2))),
   w2).
Proof.
  destruct arg as [l |]; unfold seasonGames_path, bind; simpl;
    rewrite add_query_run; reflexivity.
Qed.

Lemma dailyGames_path_run (arg : option Ref) (env : Env) (w : World) :
  let l := fst (enter arg w) in
  let w1 := snd (enter arg w) in
  let season := js_or (get "season" (deref l (heap w1))) (VStr CURRENT) in
  let w2 := mutate l (delete "season") w1 in
  let date := js_or (get "date" (deref l (heap w2)))
                    (VStr (moment.format_YYYYMMDD (today env))) in
  let w3 := mutate l (delete "date") w2 in
  dailyGames_path arg env w =
  (Return (("/" ++ toString season ++ "/date/" ++ toString date ++ "/games.json")
           ++ query (deref l (heap w3))),
   w3).
Proof.
  destruct arg as [l |]; unfold dailyGames_path, bind, js_or; simpl;
    match goal with |- context [truthy ?d] => destruct (truthy d) end; simpl;
    rewrite add_query_run; reflexivity.
Qed.

Lemma seasonalPlayerGamelogs_path_run (arg : option Ref) (env : Env) (w : World) :
  let l := fst (enter arg w) in
  let w1 := snd (enter arg w) in
  let season := js_or (get "season" (deref l (heap w1))) (VStr CURRENT) in
  let w2 := mutate l (delete "season") w1 in
  seasonalPlayerGamelogs_path arg env w =
  if isString (get "game" (deref l (heap w2)))
  then (Return (("/" ++ toString season ++ "/player_gamelogs.json")
                ++ query (deref l (heap w2))),
        w2)
  else (Throw (IllegalArgumentError (Some game_is_required)), w2).
Proof.
  destruct arg as [l |]; unfold seasonalPlayerGamelogs_path, bind, checkIsString; simpl;
    match goal with |- context [isString ?g] => destruct (isString g) end; simpl;
    try rewrite add_query_run; reflexivity.
Qed.

(** A path computation sends nothing and logs nothing. *)
Lemma path_of_quiet (op : Operation) (arg : option Ref) (env : Env) (w : World) :
  issued (snd (path_of op arg env w)) = issued w
  /\ stderr (snd (path_of op arg env w)) = stderr w.
Proof.
  destruct op; simpl.
  - rewrite seasonGames_path_run. destruct arg; split; reflexivity.
  - rewrite dailyGames_path_run. destruct arg; split; reflexivity.
  - rewrite seasonalPlayerGamelogs_path_run.
    destruct (isString _); destruct arg; split; reflexivity.
Qed.

Lemma sent_for_body (this : Client) (u : string) (env : Env) (w w1 : World)
      (op : Operation) :
  issued w1 = issued w -> stderr w1 = stderr w ->
  Ran this env w (Current op) (send_for_body this u env w1).
Proof.
  intros Hi He. rewrite send_for_body_run. simpl.
  destruct (transport env _) as [res | err] eqn:T.
  - apply (Ran_resolved this env w (Current op) u res); simpl; congruence.
  - apply (Ran_rejected this env w (Current op) u err); simpl; congruence.
Qed.

Lemma sent_for_response (this : Client) (u : string) (env : Env) (w w1 : World)
      (op : Operation_v1_2) :
  issued w1 = issued w -> stderr w1 = stderr w ->
  Ran this env w (Earlier op) (ApiBase_v1_2.send_for_response this u env w1).
Proof.
  intros Hi He. rewrite send_for_response_run. simpl.
  destruct (transport env _) as [res | err] eqn:T.
  - apply (Ran_resolved this env w (Earlier op) u res); simpl; congruence.
  - apply (Ran_rejected this env w (Earlier op) u err); simpl; congruence.
Qed.

Lemma call_any_ran (op : AnyOperation) (this : Client) (arg : option Ref)
      (env : Env) (w : World) :
  Ran this env w op (call_any op this arg env w).
Proof.
  destruct op as [op | op]; simpl.
  - rewrite call_factor. unfold bind.
    destruct (path_of_quiet op arg env w) as [Hi He].
    destruct (path_of op arg env w) as [[path | e] w1] eqn:P; simpl in Hi, He.
    + apply sent_for_body; assumption.
    + apply Ran_threw; try assumption.
      destruct op; simpl in P; try reflexivity.
      * rewrite seasonGames_path_run in P. discriminate.
      * rewrite dailyGames_path_run in P. discriminate.
  - destruct op; simpl;
      unfold ApiBase_v1_2.fullGameSchedule, ApiBase_v1_2.dailyGameSchedule, bind;
      destruct arg as [l |]; simpl;
      try match goal with |- context [truthy ?d] => destruct (truthy d) end; simpl;
      apply sent_for_response; reflexivity.
Qed.

(** At most one request is sent by a call, with the instance's header. *)
Lemma call_any_requests (op : AnyOperation) (this : Client) (arg : option Ref)
      (env : Env) (w : World) :
  exists reqs,
    issued (snd (call_any op this arg env w)) = (issued w ++ reqs)%list
    /\ (length reqs <= 1)%nat
    /\ Forall (fun r => method r = GET
                        /\ headers r = [(AUTHORIZATION, _authHeader this)]) reqs.
Proof.
  destruct (call_any_ran op this arg env w) as [e w' Hi _ _ | u res w' _ Hi _ | u err w' _ Hi _];
    simpl.
  - exists []. rewrite app_nil_r. repeat split; auto.
  - eexists. split; [exact Hi |]. split; [simpl; lia |].
    constructor; [split; reflexivity | constructor].
  - eexists. split; [exact Hi |]. split; [simpl; lia |].
    constructor; [split; reflexivity | constructor].
Qed.

(** ** Construction *)

(** A constructor checks the two credentials in turn and touches nothing. *)
Lemma construct_run (cls : ClientClass) (options : JsObject) (env : Env) (w : World) :
  construct cls options env w =
  if isString (get "apiKey" options) && isString (get "password" options)
  then (Return (mkClient
                  (_generateAuthHeader (get "apiKey" options) (get "password" options))
                  (baseUrl_of cls) (leaguePath_of cls)),
        w)
  else (Throw (IllegalArgumentError None), w).
Proof.
  destruct cls; simpl;
    unfold MlbApi.constructor, ApiBase.constructor, ApiBase_v1_2.constructor,
      bind, checkIsString;
    destruct (isString (get "apiKey" options));
    destruct (isString (get "password" options)); reflexivity.
Qed.

(** C1. For string credentials [apiKey] and [password], every class of the
    repository constructs an instance whose auth header is ["Basic "] followed
    by the base64 encoding of [apiKey ++ ":" ++ password], and every request a
    request operation of that instance sends carries exactly that value as its
    [Authorization] header. *)
Theorem auth_header_is_basic_base64
        (cls : ClientClass) (apiKey password : string)
        (options : JsObject) (env : Env) (w : World) :
  get "apiKey" options = VStr apiKey ->
  get "password" options = VStr password ->
  exists this,
    construct cls options env w = (Return this, w)
    /\ _authHeader this = "Basic " ++ Base64.encode (apiKey ++ ":" ++ password)
    /\ forall (op : AnyOperation) (arg : option Ref) (env' : Env) (w0 : World),
         exists reqs,
           issued (snd (call_any op this arg env' w0)) = (issued w0 ++ reqs)%list
           /\ Forall (fun r => headers r
                               = [("Authorization",
                                   "Basic " ++ Base64.encode (apiKey ++ ":" ++ password))])
                     reqs.
Proof.
  intros Hk Hp. rewrite construct_run, Hk, Hp. simpl.
  eexists. split; [reflexivity |]. split; [reflexivity |].
  intros op arg env' w0.
  destruct (call_any_requests op
              (mkClient (_generateAuthHeader (VStr apiKey) (VStr password))
                        (baseUrl_of cls) (leaguePath_of cls))
              arg env' w0) as (reqs & Hi & _ & Hall).
  exists reqs. split; [exact Hi |].
  eapply Forall_impl; [| exact Hall].
  intros r [_ Hh]. exact Hh.
Qed.

Lemma auth_header_is_basic_base64_witness :
  exists this,
    construct MlbApiClass sample_credentials (answering (Resolve sample_response))
              empty_world
    = (Return this, empty_world)
    /\ _authHeader this = "Basic " ++ Base64.encode ("key" ++ ":" ++ "secret")
    /\ forall (op : AnyOperation) (arg : option Ref) (env' : Env) (w0 : World),
         exists reqs,
           issued (snd (call_any op this arg env' w0)) = (issued w0 ++ reqs)%list
           /\ Forall (fun r => headers r
                               = [("Authorization",
                                   "Basic " ++ Base64.encode ("key" ++ ":" ++ "secret"))])
                     reqs.
Proof.
  apply (auth_header_is_basic_base64 MlbApiClass "key" "secret" sample_credentials);
    reflexivity.
Defined.

(** C6. A constructor whose [apiKey] or [password] option is missing or is not
    a string throws, leaving the world (and so the list of requests sent) as it
    was; with two strings it returns an instance. *)
Theorem constructor_checks_credentials
        (cls : ClientClass) (options : JsObject) (env : Env) (w : World) :
  (isString (get "apiKey" options) = false \/ isString (get "password" options) = false ->
   construct cls options env w = (Throw (IllegalArgumentError None), w))
  /\ (forall apiKey password : string,
        get "apiKey" options = VStr apiKey ->
        get "password" options = VStr password ->
        exists this, construct cls options env w = (Return this, w)).
Proof.
  split.
  - intros H. rewrite construct_run.
    destruct H as [H | H]; rewrite H; [| rewrite andb_false_r]; reflexivity.
  - intros apiKey password Hk Hp. rewrite construct_run, Hk, Hp. simpl.
    eexists. reflexivity.
Qed.

Lemma constructor_checks_credentials_witness :
  construct ApiBaseClass [("apiKey", VStr "key"); ("password", VInt 1234)]
            (answering (Resolve sample_response)) empty_world
  = (Throw (IllegalArgumentError None), empty_world)
  /\ construct MlbApiClass [("apiKey", VStr "key")]
               (answering (Resolve sample_response)) empty_world
     = (Throw (IllegalArgumentError None), empty_world)
  /\ exists this,
       construct ApiBaseClass_v1_2 sample_credentials
                 (answering (Resolve sample_response)) empty_world
       = (Return this, empty_world).
Proof.
  split; [| split].
  - apply (constructor_checks_credentials ApiBaseClass
             [("apiKey", VStr "key"); ("password", VInt 1234)]).
    right. reflexivity.
  - apply (constructor_checks_credentials MlbApiClass [("apiKey", VStr "key")]).
    right. reflexivity.
  - apply (constructor_checks_credentials ApiBaseClass_v1_2 sample_credentials
             (answering (Resolve sample_response)) empty_world) with "key" "secret";
      reflexivity.
Defined.

(** ** The options object during a call *)

Lemma deref_mutate_delete (l : Ref) (k : string) (w : World) :
  deref l (heap (mutate l (delete k) w)) = delete k (deref l (heap w)).
Proof.
  unfold mutate. simpl.
  destruct (Nat.lt_ge_cases l (length (heap w))) as [H | H].
  - apply deref_store_same. exact H.
  - rewrite store_dangling by exact H.
    rewrite deref_dangling by exact H. reflexivity.
Qed.

Lemma deref_mutate_other (l l' : Ref) (f : JsObject -> JsObject) (w : World) :
  l' <> l -> deref l' (heap (mutate l f w)) = deref l' (heap w).
Proof. intros H. unfold mutate. simpl. apply deref_store_other. exact H. Qed.

Lemma length_heap_mutate (l : Ref) (f : JsObject -> JsObject) (w : World) :
  length (heap (mutate l f w)) = length (heap w).
Proof. unfold mutate. simpl. apply length_store. Qed.

Lemma enter_options (arg : option Ref) (w : World) :
  deref (fst (enter arg w)) (heap (snd (enter arg w))) = options_of arg w.
Proof. destruct arg as [l |]; simpl; [reflexivity | apply deref_fresh]. Qed.

Lemma enter_quiet (arg : option Ref) (w : World) :
  issued (snd (enter arg w)) = issued w /\ stderr (snd (enter arg w)) = stderr w.
Proof. destruct arg; split; reflexivity. Qed.

(** ** Failure of the transport *)

(** C8. Once a request operation (of either generation of the client) has
    sent its request, the call returns and does not throw; when the transport
    rejects that request, the call returns [null] and the error is appended to
    standard error. *)
Theorem rejected_request_returns_null
        (op : AnyOperation) (this : Client) (arg : option Ref)
        (env : Env) (w : World) (req : Request) :
  issued (snd (call_any op this arg env w)) = (issued w ++ [req])%list ->
  (exists v, fst (call_any op this arg env w) = Return v)
  /\ (forall err,
        transport env req = Reject err ->
        fst (call_any op this arg env w) = Return null
        /\ stderr (snd (call_any op this arg env w)) = (stderr w ++ [err])%list).
Proof.
  destruct (call_any_ran op this arg env w)
    as [e w' Hi _ _ | u res w' T Hi He | u err0 w' T Hi He]; simpl; intros Hreq.
  - rewrite Hi in Hreq. rewrite <- (app_nil_r (issued w)) in Hreq at 1.
    apply app_inv_head in Hreq. discriminate.
  - rewrite Hi in Hreq. apply app_inv_head in Hreq. injection Hreq as <-.
    split; [eexists; reflexivity |].
    intros err Hrej. congruence.
  - rewrite Hi in Hreq. apply app_inv_head in Hreq. injection Hreq as <-.
    split; [eexists; reflexivity |].
    intros err Hrej. rewrite T in Hrej. injection Hrej as <-.
    split; [reflexivity | exact He].
Qed.

Lemma rejected_request_returns_null_witness :
  (exists v,
      fst (call_any (Current DailyGames) sample_client None
             (answering (Reject (RequestError (Some 503%Z) "Service Unavailable")))
             empty_world) = Return v)
  /\ (forall err,
        transport (answering (Reject (RequestError (Some 503%Z) "Service Unavailable")))
          (request_for sample_client "/current/date/20190924/games.json") = Reject err ->
        fst (call_any (Current DailyGames) sample_client None
               (answering (Reject (RequestError (Some 503%Z) "Service Unavailable")))
               empty_world) = Return null
        /\ stderr (snd (call_any (Current DailyGames) sample_client None
                          (answering (Reject (RequestError (Some 503%Z) "Service Unavailable")))
                          empty_world))
           = ([] ++ [err])%list).
Proof.
  apply (rejected_request_returns_null (Current DailyGames) sample_client None
           (answering (Reject (RequestError (Some 503%Z) "Service Unavailable")))
           empty_world
           (request_for sample_client "/current/date/20190924/games.json")).
  reflexivity.
Defined.

(** A rejection is the only way to [null] through the catch: every call sends
    at most one request. *)
Lemma call_any_sends_at_most_once (op : AnyOperation) (this : Client)
      (arg : option Ref) (env : Env) (w : World) :
  issued (snd (call_any op this arg env w)) = issued w
  \/ exists req, issued (snd (call_any op this arg env w)) = (issued w ++ [req])%list.
Proof.
  destruct (call_any_ran op this arg env w) as [e w' Hi _ _ | u res w' _ Hi _ | u err w' _ Hi _];
    simpl; [left; exact Hi | right; eexists; exact Hi | right; eexists; exact Hi].
Qed.

(** ** What a successful call returns *)

(** The methods of api-base.js hand back the parsed body. *)
Lemma current_operations_return_body
      (op : Operation) (this : Client) (arg : option Ref)
      (env : Env) (w : World) (req : Request) (res : Response) :
  issued (snd (call op this arg env w)) = (issued w ++ [req])%list ->
  transport env req = Resolve res ->
  fst (call op this arg env w) = Return (RJson (body res)).
Proof.
  change (call op) with (call_any (Current op)).
  destruct (call_any_ran (Current op) this arg env w)
    as [e w' Hi _ _ | u res0 w' T Hi _ | u err w' T Hi _]; simpl; intros Hreq Hres.
  - rewrite Hi in Hreq. rewrite <- (app_nil_r (issued w)) in Hreq at 1.
    apply app_inv_head in Hreq. discriminate.
  - rewrite Hi in Hreq. apply app_inv_head in Hreq. injection Hreq as <-. congruence.
  - rewrite Hi in Hreq. apply app_inv_head in Hreq. injection Hreq as <-. congruence.
Qed.

(** The methods of the earlier client hand back the response itself. *)
Lemma earlier_operations_return_response
      (op : Operation_v1_2) (this : Client) (arg : option Ref)
      (env : Env) (w : World) (req : Request) (res : Response) :
  issued (snd (call_v1_2 op this arg env w)) = (issued w ++ [req])%list ->
  transport env req = Resolve res ->
  fst (call_v1_2 op this arg env w) = Return (RResponse res).
Proof.
  change (call_v1_2 op) with (call_any (Earlier op)).
  destruct (call_any_ran (Earlier op) this arg env w)
    as [e w' Hi _ _ | u res0 w' T Hi _ | u err w' T Hi _]; simpl; intros Hreq Hres.
  - rewrite Hi in Hreq. rewrite <- (app_nil_r (issued w)) in Hreq at 1.
    apply app_inv_head in Hreq. discriminate.
  - rewrite Hi in Hreq. apply app_inv_head in Hreq. injection Hreq as <-. congruence.
  - rewrite Hi in Hreq. apply app_inv_head in Hreq. injection Hreq as <-. congruence.
Qed.

(** C2. Returning the parsed body when the transport succeeds holds for the
    three methods of api-base.js and fails for the earlier client.  Run
    without options against a transport that resolves with [sample_response],
    [fullGameSchedule] and [dailyGameSchedule] return the response object,
    which is not its body; [seasonGames], on the same transport, returns the
    body. *)
Theorem earlier_client_returns_raw_response :
  fst (ApiBase_v1_2.fullGameSchedule sample_client_v1_2 None
         (answering (Resolve sample_response)) empty_world)
  = Return (RResponse sample_response)
  /\ fst (ApiBase_v1_2.dailyGameSchedule sample_client_v1_2 None
            (answering (Resolve sample_response)) empty_world)
     = Return (RResponse sample_response)
  /\ RResponse sample_response <> RJson (body sample_response)
  /\ fst (ApiBase.seasonGames sample_client None
            (answering (Resolve sample_response)) empty_world)
     = Return (RJson (body sample_response)).
Proof.
  split; [reflexivity |]. split; [reflexivity |]. split; [discriminate | reflexivity].
Qed.

(** ** The URL of a request *)

(** The methods of api-base.js send to the base URL, the league path and an
    endpoint path that begins with a slash. *)
Lemma current_operations_url
      (op : Operation) (this : Client) (arg : option Ref)
      (env : Env) (w : World) (req : Request) :
  issued (snd (call op this arg env w)) = (issued w ++ [req])%list ->
  exists path,
    req = request_for this path
    /\ url req = _baseUrl this ++ _leaguePath this ++ path
    /\ starts_with "/" path = true.
Proof.
  rewrite call_factor. unfold bind.
  destruct (path_of_quiet op arg env w) as [Hi He].
  destruct (path_of op arg env w) as [[path | e] w1] eqn:P; simpl in Hi, He.
  - rewrite send_for_body_run. simpl.
    assert (Hs : starts_with "/" path = true).
    { destruct op; simpl in P.
      - rewrite seasonGames_path_run in P. injection P as <- _.
        apply starts_with_slash.
      - rewrite dailyGames_path_run in P. injection P as <- _.
        apply starts_with_slash.
      - rewrite seasonalPlayerGamelogs_path_run in P.
        destruct (isString _); [| discriminate]. injection P as <- _.
        apply starts_with_slash. }
    destruct (transport env _); simpl; rewrite Hi; intros Hreq;
      apply app_inv_head in Hreq; injection Hreq as <-;
      exists path; repeat split; exact Hs.
  - simpl. rewrite Hi. intros Hreq.
    rewrite <- (app_nil_r (issued w)) in Hreq at 1.
    apply app_inv_head in Hreq. discriminate.
Qed.

(** C7. The endpoint path of [dailyGameSchedule] of the earlier client does
    not begin with a slash.  Run without options on 24 September 2019 it sends
    to a URL in which [current] follows [pull] directly: whatever follows base
    URL and league path in that URL does not begin with a slash. *)
Theorem dailyGameSchedule_url_lacks_slash :
  issued (snd (ApiBase_v1_2.dailyGameSchedule sample_client_v1_2 None
                 (answering (Resolve sample_response)) empty_world))
  = [mkRequest "GET"
       "https://api.mysportsfeeds.com/v1.2/pullcurrent/daily_game_schedule.json?forDate=20190924"
       [("Authorization", "Basic a2V5OnNlY3JldA==")]]
  /\ forall endpoint,
       "https://api.mysportsfeeds.com/v1.2/pullcurrent/daily_game_schedule.json?forDate=20190924"
       = _baseUrl sample_client_v1_2 ++ _leaguePath sample_client_v1_2 ++ endpoint ->
       starts_with "/" endpoint = false.
Proof.
  split; [reflexivity |].
  intros endpoint H. simpl in H.
  repeat (injection H as H). subst endpoint. reflexivity.
Qed.

(** ** The player gamelogs *)

Lemma gamelogs_game_seen (arg : option Ref) (w : World) :
  get "game"
      (deref (fst (enter arg w))
             (heap (mutate (fst (enter arg w)) (delete "season") (snd (enter arg w)))))
  = get "game" (options_of arg w).
Proof.
  rewrite deref_mutate_delete, get_delete_other by discriminate.
  rewrite enter_options. reflexivity.
Qed.

(** C3. When the options hold no string under [game] (the key is absent, or
    its value is not a string, or no options are passed), the call throws the
    [IllegalArgumentError] with the message about [options.game]; no request
    is sent and nothing is logged; and a thrown error is not the [null] that a
    failed request returns. *)
Theorem gamelogs_requires_game
        (this : Client) (arg : option Ref) (env : Env) (w : World) :
  isString (get "game" (options_of arg w)) = false ->
  fst (ApiBase.seasonalPlayerGamelogs this arg env w)
  = Throw (IllegalArgumentError (Some game_is_required))
  /\ issued (snd (ApiBase.seasonalPlayerGamelogs this arg env w)) = issued w
  /\ stderr (snd (ApiBase.seasonalPlayerGamelogs this arg env w)) = stderr w
  /\ fst (ApiBase.seasonalPlayerGamelogs this arg env w) <> Return null.
Proof.
  intros Hg.
  change ApiBase.seasonalPlayerGamelogs with (call SeasonalPlayerGamelogs).
  rewrite call_factor. unfold bind. simpl path_of.
  rewrite seasonalPlayerGamelogs_path_run, gamelogs_game_seen, Hg.
  destruct (enter_quiet arg w) as [Hi He].
  repeat split; simpl; try assumption. discriminate.
Qed.

Lemma gamelogs_requires_game_witness :
  fst (ApiBase.seasonalPlayerGamelogs sample_client (Some 0)
         (answering (Resolve sample_response))
         (mkWorld [[("game", VInt 20190924); ("team", VStr "NYY")]] [] []))
  = Throw (IllegalArgumentError (Some game_is_required))
  /\ issued (snd (ApiBase.seasonalPlayerGamelogs sample_client (Some 0)
                    (answering (Resolve sample_response))
                    (mkWorld [[("game", VInt 20190924); ("team", VStr "NYY")]] [] [])))
     = []
  /\ stderr (snd (ApiBase.seasonalPlayerGamelogs sample_client (Some 0)
                    (answering (Resolve sample_response))
                    (mkWorld [[("game", VInt 20190924); ("team", VStr "NYY")]] [] [])))
     = []
  /\ fst (ApiBase.seasonalPlayerGamelogs sample_client (Some 0)
            (answering (Resolve sample_response))
            (mkWorld [[("game", VInt 20190924); ("team", VStr "NYY")]] [] []))
     <> Return null.
Proof.
  apply (gamelogs_requires_game sample_client (Some 0)
           (answering (Resolve sample_response))
           (mkWorld [[("game", VInt 20190924); ("team", VStr "NYY")]] [] [])).
  reflexivity.
Defined.

(** C4. With options that are exactly [{ game: "20190924-NYY-TB" }] the one
    request of [seasonalPlayerGamelogs] goes to [_apiUrl] of the path
    [/current/player_gamelogs.json?game=20190924-NYY-TB], that is to base URL,
    league path and that path. *)
Theorem gamelogs_path_for_game
        (this : Client) (l : Ref) (env : Env) (w : World) :
  deref l (heap w) = [("game", VStr "20190924-NYY-TB")] ->
  issued (snd (ApiBase.seasonalPlayerGamelogs this (Some l) env w))
  = (issued w
     ++ [mkRequest "GET"
           (_baseUrl this ++ _leaguePath this
            ++ "/current/player_gamelogs.json?game=20190924-NYY-TB")
           [("Authorization", _authHeader this)]])%list.
Proof.
  intros Ho.
  change ApiBase.seasonalPlayerGamelogs with (call SeasonalPlayerGamelogs).
  rewrite call_factor. unfold bind. simpl path_of.
  rewrite seasonalPlayerGamelogs_path_run, gamelogs_game_seen, deref_mutate_delete.
  simpl enter. simpl fst. simpl snd. simpl options_of.
  rewrite Ho. simpl.
  rewrite send_for_body_run. simpl.
  destruct (transport env _); reflexivity.
Qed.

Lemma gamelogs_path_for_game_witness :
  issued (snd (ApiBase.seasonalPlayerGamelogs sample_client (Some 0)
                 (answering (Resolve sample_response))
                 (mkWorld [[("game", VStr "20190924-NYY-TB")]] [] [])))
  = ([] ++ [mkRequest "GET"
              (_baseUrl sample_client ++ _leaguePath sample_client
               ++ "/current/player_gamelogs.json?game=20190924-NYY-TB")
              [("Authorization", _authHeader sample_client)]])%list.
Proof.
  apply (gamelogs_path_for_game sample_client 0
           (answering (Resolve sample_response))
           (mkWorld [[("game", VStr "20190924-NYY-TB")]] [] [])).
  reflexivity.
Defined.

(** ** Defaults *)

Arguments moment.format_YYYYMMDD : simpl never.

Lemma absent_defaults (k : string) (o : JsObject) (d : JsValue) :
  lookup k o = None -> js_or (get k o) d = d.
Proof. intros H. unfold js_or, get. rewrite H. reflexivity. Qed.

(** The one request of an operation of api-base.js, given its path. *)
Lemma call_sends_path (op : Operation) (this : Client) (arg : option Ref)
      (env : Env) (w w1 : World) (path : string) :
  path_of op arg env w = (Return path, w1) ->
  issued (snd (call op this arg env w)) = (issued w ++ [request_for this path])%list.
Proof.
  intros P. rewrite call_factor. unfold bind. rewrite P.
  destruct (path_of_quiet op arg env w) as [Hi _]. rewrite P in Hi. simpl in Hi.
  rewrite send_for_body_run. simpl.
  destruct (transport env _); simpl; rewrite Hi; reflexivity.
Qed.

(** The earlier methods, run. *)
Lemma fullGameSchedule_run (this : Client) (arg : option Ref) (env : Env) (w : World) :
  ApiBase_v1_2.fullGameSchedule this arg env w =
  ApiBase_v1_2.send_for_response this
    (_apiUrl this
       ("/" ++ toString (js_or (get "seasonName" (options_of arg w)) (VStr CURRENT))
        ++ "/full_game_schedule.json"))
    env (snd (enter arg w)).
Proof.
  unfold ApiBase_v1_2.fullGameSchedule, bind.
  destruct arg as [l |]; simpl; [reflexivity |].
  rewrite deref_fresh. reflexivity.
Qed.

Lemma dailyGameSchedule_run (this : Client) (arg : option Ref) (env : Env) (w : World) :
  ApiBase_v1_2.dailyGameSchedule this arg env w =
  ApiBase_v1_2.send_for_response this
    (_apiUrl this
       (toString (js_or (get "seasonName" (options_of arg w)) (VStr CURRENT))
        ++ "/daily_game_schedule.json?forDate="
        ++ toString (js_or (get "forDate" (options_of arg w))
                           (VStr (moment.format_YYYYMMDD (today env))))))
    env (snd (enter arg w)).
Proof.
  unfold ApiBase_v1_2.dailyGameSchedule, bind, js_or.
  destruct arg as [l |]; simpl.
  - destruct (truthy (get "forDate" (deref l (heap w)))); reflexivity.
  - rewrite deref_fresh. reflexivity.
Qed.

Lemma send_for_response_issued (this : Client) (u : string) (env : Env)
      (w w1 : World) :
  issued w1 = issued w ->
  issued (snd (ApiBase_v1_2.send_for_response this u env w1))
  = (issued w ++ [mkRequest GET u [(AUTHORIZATION, _authHeader this)]])%list.
Proof.
  intros Hi. rewrite send_for_response_run. cbv zeta.
  destruct (transport env _); cbn [snd issued]; rewrite Hi; reflexivity.
Qed.

Lemma daily_path_assoc (season date rest : string) :
  ("/" ++ season ++ "/date/" ++ date ++ "/games.json") ++ rest
  = "/" ++ season ++ "/date/" ++ date ++ "/games.json" ++ rest.
Proof.
  rewrite (append_assoc "/"), (append_assoc season), (append_assoc "/date/"),
    (append_assoc date).
  reflexivity.
Qed.

(** With the season option absent, a request that is sent has [current] in
    the season position. *)
Lemma season_absent_token (op : AnyOperation) (this : Client) (arg : option Ref)
      (env : Env) (w : World) (req : Request) :
  lookup (season_key op) (options_of arg w) = None ->
  issued (snd (call_any op this arg env w)) = (issued w ++ [req])%list ->
  exists rest,
    starts_with "/" rest = true
    /\ url req = _apiUrl this (path_with_season op "current" rest).
Proof.
  intros Hs. revert req. destruct op as [op | op]; intros req; simpl call_any.
  - destruct (path_of op arg env w) as [[path | e] w1] eqn:P.
    + rewrite (call_sends_path op this arg env w w1 path P).
      intros Hreq. apply app_inv_head in Hreq. injection Hreq as <-.
      destruct op; simpl in P, Hs.
      *  rewrite seasonGames_path_run, enter_options in P.
         rewrite absent_defaults in P by exact Hs.
         injection P as <- _. eexists. split; [| reflexivity]. reflexivity.
      *  rewrite dailyGames_path_run, enter_options in P.
         rewrite absent_defaults in P by exact Hs.
         injection P as <- _. eexists. split; [| reflexivity]. reflexivity.
      *  rewrite seasonalPlayerGamelogs_path_run, enter_options in P.
         rewrite absent_defaults in P by exact Hs.
         destruct (isString _); [| discriminate].
         injection P as <- _. eexists. split; [| reflexivity]. reflexivity.
    + rewrite call_factor. unfold bind. rewrite P.
      destruct (path_of_quiet op arg env w) as [Hi _]. rewrite P in Hi. simpl in Hi.
      simpl. rewrite Hi. intros Hreq.
      rewrite <- (app_nil_r (issued w)) in Hreq at 1.
      apply app_inv_head in Hreq. discriminate.
  - destruct (enter_quiet arg w) as [Hi _].
    destruct op; simpl in Hs; simpl call_v1_2.
    + rewrite fullGameSchedule_run, absent_defaults by exact Hs.
      rewrite (send_for_response_issued this _ env w _ Hi).
      intros Hreq. apply app_inv_head in Hreq. injection Hreq as <-.
      exists "/full_game_schedule.json". split; reflexivity.
    + rewrite dailyGameSchedule_run, absent_defaults by exact Hs.
      rewrite (send_for_response_issued this _ env w _ Hi).
      intros Hreq. apply app_inv_head in Hreq. injection Hreq as <-.
      eexists. split; [| reflexivity].
      exact (starts_with_append "/" _).
Qed.

(** The path computation returns unless [game] is wanted and is no string. *)
Lemma path_of_returns (op : Operation) (arg : option Ref) (env : Env) (w : World) :
  op <> SeasonalPlayerGamelogs \/ isString (get "game" (options_of arg w)) = true ->
  exists path w1, path_of op arg env w = (Return path, w1).
Proof.
  intros H. destruct op; simpl path_of.
  - rewrite seasonGames_path_run. eexists. eexists. reflexivity.
  - rewrite dailyGames_path_run. eexists. eexists. reflexivity.
  - rewrite seasonalPlayerGamelogs_path_run, gamelogs_game_seen.
    destruct H as [H | H]; [congruence |]. rewrite H.
    eexists. eexists. reflexivity.
Qed.

(** Every operation sends its request, [seasonalPlayerGamelogs] when [game] is
    a string. *)
Lemma call_any_sends (op : AnyOperation) (this : Client) (arg : option Ref)
      (env : Env) (w : World) :
  op <> Current SeasonalPlayerGamelogs
  \/ isString (get "game" (options_of arg w)) = true ->
  exists req, issued (snd (call_any op this arg env w)) = (issued w ++ [req])%list.
Proof.
  intros H. destruct op as [op | op]; simpl call_any.
  - destruct (path_of_returns op arg env w) as (path & w1 & P).
    { destruct H as [H | H]; [left; congruence | right; exact H]. }
    eexists. apply (call_sends_path op this arg env w w1 path P).
  - destruct (enter_quiet arg w) as [Hi _].
    destruct op; simpl call_v1_2.
    + rewrite fullGameSchedule_run. eexists.
      apply send_for_response_issued. exact Hi.
    + rewrite dailyGameSchedule_run. eexists.
      apply send_for_response_issued. exact Hi.
Qed.

(** C5. When the option that carries the season ([seasonName] for
    [seasonGames] and the two earlier methods, [season] for [dailyGames] and
    [seasonalPlayerGamelogs]) is absent, each operation sends its request to a
    path with [current] in the season position ([seasonalPlayerGamelogs] when
    [game] is a string: without one it throws before it builds a path); and
    when [date] is absent, the one request of [dailyGames] has the date of the
    clock, formatted by [YYYYMMDD], in the date position. *)
Theorem defaults_current_and_today
        (this : Client) (arg : option Ref) (env : Env) (w : World) :
  (forall op : AnyOperation,
      lookup (season_key op) (options_of arg w) = None ->
      op <> Current SeasonalPlayerGamelogs
      \/ isString (get "game" (options_of arg w)) = true ->
      exists req rest,
        issued (snd (call_any op this arg env w)) = (issued w ++ [req])%list
        /\ starts_with "/" rest = true
        /\ url req = _apiUrl this (path_with_season op "current" rest))
  /\ (lookup "date" (options_of arg w) = None ->
      exists season rest,
        issued (snd (ApiBase.dailyGames this arg env w))
        = (issued w
           ++ [request_for this
                 ("/" ++ season ++ "/date/"
                  ++ moment.format_YYYYMMDD (today env) ++ "/games.json" ++ rest)])%list).
Proof.
  split.
  - intros op Hs Hg.
    destruct (call_any_sends op this arg env w Hg) as [req Hreq].
    destruct (season_absent_token op this arg env w req Hs Hreq) as (rest & Hr & Hu).
    exists req, rest. split; [exact Hreq |]. split; [exact Hr | exact Hu].
  - intros Hd.
    pose proof (dailyGames_path_run arg env w) as P. cbv zeta in P.
    rewrite deref_mutate_delete, enter_options in P.
    rewrite (absent_defaults "date") in P
      by (rewrite lookup_delete_other by discriminate; exact Hd).
    change ApiBase.dailyGames with (call DailyGames).
    rewrite (call_sends_path DailyGames this arg env w _ _ P).
    change (toString (VStr (moment.format_YYYYMMDD (today env))))
      with (moment.format_YYYYMMDD (today env)).
    rewrite daily_path_assoc.
    eexists. eexists. reflexivity.
Qed.

Lemma defaults_current_and_today_witness :
  (exists req rest,
      issued (snd (call_any (Current SeasonGames) sample_client (Some 0)
                     (answering (Resolve sample_response))
                     (mkWorld [[("team", VStr "NYY")]] [] [])))
      = ([] ++ [req])%list
      /\ starts_with "/" rest = true
      /\ url req
         = _apiUrl sample_client (path_with_season (Current SeasonGames) "current" rest))
  /\ (exists season rest,
        issued (snd (ApiBase.dailyGames sample_client (Some 0)
                       (answering (Resolve sample_response))
                       (mkWorld [[("team", VStr "NYY")]] [] [])))
        = ([] ++ [request_for sample_client
                    ("/" ++ season ++ "/date/"
                     ++ moment.format_YYYYMMDD (moment.mkDate 2019 9 24)
                     ++ "/games.json" ++ rest)])%list).
Proof.
  destruct (defaults_current_and_today sample_client (Some 0)
              (answering (Resolve sample_response))
              (mkWorld [[("team", VStr "NYY")]] [] [])) as [Hseason Hdate].
  split.
  - apply (Hseason (Current SeasonGames)); [reflexivity | left; discriminate].
  - apply Hdate. reflexivity.
Defined.

(** ** The caller's options after a call *)

(** Deleting several keys in turn. *)
Lemma lookup_delete_keys (ks : list string) (k : string) (o : JsObject) :
  lookup k (fold_left (fun o' k' => delete k' o') ks o)
  = if mem k ks then None else lookup k o.
Proof.
  revert o. induction ks as [| k0 ks IH]; intros o; simpl; [reflexivity |].
  rewrite IH. destruct (mem k ks) eqn:M.
  - rewrite orb_true_r. reflexivity.
  - rewrite orb_false_r. destruct (k =? k0) eqn:E.
    + apply String.eqb_eq in E. subst k0. apply lookup_delete_same.
    + apply String.eqb_neq in E. apply lookup_delete_other. exact E.
Qed.

Lemma keys_delete_keys (ks : list string) (o : JsObject) :
  Object_keys (fold_left (fun o' k' => delete k' o') ks o)
  = filter (fun k => negb (mem k ks)) (Object_keys o).
Proof.
  revert o. induction ks as [| k0 ks IH]; intros o; simpl.
  - induction o as [| [k v] o IHo]; simpl; [reflexivity |]. f_equal. exact IHo.
  - rewrite IH. clear IH. induction o as [| [k v] o IHo]; simpl; [reflexivity |].
    rewrite (String.eqb_sym k k0).
    destruct (k0 =? k) eqn:E; simpl; [exact IHo |].
    destruct (mem k ks); simpl; [exact IHo | f_equal; exact IHo].
Qed.

(** The heap after a call on the caller's object: the keys of the operation
    are deleted from that object, one after the other. *)
Lemma heap_after_call (op : Operation) (this : Client) (l : Ref)
      (env : Env) (w : World) :
  heap (snd (call op this (Some l) env w))
  = heap (fold_left (fun w' k => mutate l (delete k) w') (deleted_keys op) w).
Proof.
  rewrite call_factor. unfold bind.
  assert (H : heap (snd (path_of op (Some l) env w))
              = heap (fold_left (fun w' k => mutate l (delete k) w') (deleted_keys op) w)).
  { destruct op; simpl path_of.
    - rewrite seasonGames_path_run. reflexivity.
    - rewrite dailyGames_path_run. reflexivity.
    - rewrite seasonalPlayerGamelogs_path_run. destruct (isString _); reflexivity. }
  destruct (path_of op (Some l) env w) as [[path | e] w1]; simpl in H.
  - rewrite send_for_body_run. cbv zeta. destruct (transport env _); exact H.
  - exact H.
Qed.

Lemma deref_mutate_keys (l : Ref) (ks : list string) (w : World) :
  deref l (heap (fold_left (fun w' k => mutate l (delete k) w') ks w))
  = fold_left (fun o' k' => delete k' o') ks (deref l (heap w)).
Proof.
  revert w. induction ks as [| k ks IH]; intros w; simpl; [reflexivity |].
  rewrite IH, deref_mutate_delete. reflexivity.
Qed.

Lemma frame_mutate_keys (l l' : Ref) (ks : list string) (w : World) :
  l' <> l ->
  deref l' (heap (fold_left (fun w' k => mutate l (delete k) w') ks w))
  = deref l' (heap w).
Proof.
  intros Hne. revert w. induction ks as [| k ks IH]; intros w; simpl; [reflexivity |].
  rewrite IH. apply deref_mutate_other. exact Hne.
Qed.

Lemma length_mutate_keys (l : Ref) (ks : list string) (w : World) :
  length (heap (fold_left (fun w' k => mutate l (delete k) w') ks w))
  = length (heap w).
Proof.
  revert w. induction ks as [| k ks IH]; intros w; simpl; [reflexivity |].
  rewrite IH. apply length_heap_mutate.
Qed.

(** C10. A call of an operation of api-base.js on the caller's object [l]
    leaves that object without the keys of the operation ([seasonName] for
    [seasonGames]; [season] and [date] for [dailyGames]; [season], and not
    [game], for [seasonalPlayerGamelogs]) and with every other key as it was,
    in the same order; no other object of the heap changes. *)
Theorem options_object_is_mutated
        (op : Operation) (this : Client) (l : Ref) (env : Env) (w : World) :
  (forall k,
      lookup k (deref l (heap (snd (call op this (Some l) env w))))
      = if mem k (deleted_keys op) then None else lookup k (deref l (heap w)))
  /\ Object_keys (deref l (heap (snd (call op this (Some l) env w))))
     = filter (fun k => negb (mem k (deleted_keys op))) (Object_keys (deref l (heap w)))
  /\ (forall l', l' <> l ->
        deref l' (heap (snd (call op this (Some l) env w))) = deref l' (heap w))
  /\ length (heap (snd (call op this (Some l) env w))) = length (heap w)
  /\ mem "game" (deleted_keys SeasonalPlayerGamelogs) = false.
Proof.
  rewrite heap_after_call. repeat split.
  - intros k. rewrite deref_mutate_keys. apply lookup_delete_keys.
  - rewrite deref_mutate_keys. apply keys_delete_keys.
  - intros l' Hne. apply frame_mutate_keys. exact Hne.
  - apply length_mutate_keys.
Qed.

Example seasonGames_mutates_options :
  heap (snd (ApiBase.seasonGames sample_client (Some 1)
               (answering (Resolve sample_response))
               (mkWorld [[("seasonName", VStr "x")];
                         [("team", VStr "NYY"); ("seasonName", VStr "2019-regular");
                          ("force", VBool true)]] [] [])))
  = [[("seasonName", VStr "x")]; [("team", VStr "NYY"); ("force", VBool true)]].
Proof. reflexivity. Qed.

(** ** The MLB client *)

(** A path computation reads the environment for the date only. *)
Lemma path_of_env (op : Operation) (arg : option Ref) (env1 env2 : Env) (w : World) :
  today env1 = today env2 -> path_of op arg env1 w = path_of op arg env2 w.
Proof.
  intros Ht. destruct op; simpl.
  - rewrite !seasonGames_path_run. reflexivity.
  - rewrite !dailyGames_path_run, Ht. reflexivity.
  - rewrite !seasonalPlayerGamelogs_path_run. reflexivity.
Qed.

(** Two instances whose requests for the same path are answered alike run
    every operation alike, each sending to its own URL. *)
Lemma call_two_clients (op : Operation) (c1 c2 : Client) (arg : option Ref)
      (env1 env2 : Env) (w : World) :
  today env1 = today env2 ->
  (forall path, transport env1 (request_for c1 path) = transport env2 (request_for c2 path)) ->
  exists paths,
    fst (call op c1 arg env1 w) = fst (call op c2 arg env2 w)
    /\ heap (snd (call op c1 arg env1 w)) = heap (snd (call op c2 arg env2 w))
    /\ stderr (snd (call op c1 arg env1 w)) = stderr (snd (call op c2 arg env2 w))
    /\ issued (snd (call op c1 arg env1 w)) = (issued w ++ map (request_for c1) paths)%list
    /\ issued (snd (call op c2 arg env2 w)) = (issued w ++ map (request_for c2) paths)%list.
Proof.
  intros Ht Hnet. rewrite !call_factor. unfold bind.
  rewrite (path_of_env op arg env1 env2 w Ht).
  destruct (path_of_quiet op arg env2 w) as [Hi _].
  destruct (path_of op arg env2 w) as [[path | e] w1]; simpl in Hi.
  - exists [path]. rewrite !send_for_body_run. cbv zeta.
    change (mkRequest GET (_apiUrl c1 path) [(AUTHORIZATION, _authHeader c1)])
      with (request_for c1 path).
    change (mkRequest GET (_apiUrl c2 path) [(AUTHORIZATION, _authHeader c2)])
      with (request_for c2 path).
    rewrite (Hnet path).
    destruct (transport env2 (request_for c2 path)); cbn [fst snd heap stderr issued map];
      rewrite Hi; repeat split; reflexivity.
  - exists []. cbn [fst snd map]. rewrite Hi, app_nil_r. repeat split; reflexivity.
Qed.

(** C9. [MlbApi] validates its options as [ApiBase] does and yields the base
    instance with the league path [/mlb]; and when the network answers the
    request for a path under [/mlb] as it answers the base instance's request
    for that path, every operation returns or throws the same, leaves the same
    heap and the same log, and sends the requests of the base instance with
    [/mlb] between the base URL and the path. *)
Theorem mlb_is_base_with_league_path
        (options : JsObject) (env : Env) (w : World) :
  MlbApi.constructor options env w
  = match ApiBase.constructor options env w with
    | (Return base, w') => (Return (with_leaguePath "/mlb" base), w')
    | (Throw e, w') => (Throw e, w')
    end
  /\ forall base : Client,
       fst (ApiBase.constructor options env w) = Return base ->
       _leaguePath base = EmptyString
       /\ forall (op : Operation) (arg : option Ref) (env_mlb env_base : Env) (w0 : World),
            today env_mlb = today env_base ->
            (forall path,
                transport env_mlb (request_for (with_leaguePath "/mlb" base) path)
                = transport env_base (request_for base path)) ->
            exists paths,
              fst (call_mlb op (with_leaguePath "/mlb" base) arg env_mlb w0)
              = fst (call op base arg env_base w0)
              /\ heap (snd (call_mlb op (with_leaguePath "/mlb" base) arg env_mlb w0))
                 = heap (snd (call op base arg env_base w0))
              /\ stderr (snd (call_mlb op (with_leaguePath "/mlb" base) arg env_mlb w0))
                 = stderr (snd (call op base arg env_base w0))
              /\ issued (snd (call op base arg env_base w0))
                 = (issued w0
                    ++ map (fun path =>
                              mkRequest GET (_baseUrl base ++ path)
                                        [(AUTHORIZATION, _authHeader base)]) paths)%list
              /\ issued (snd (call_mlb op (with_leaguePath "/mlb" base) arg env_mlb w0))
                 = (issued w0
                    ++ map (fun path =>
                              mkRequest GET (_baseUrl base ++ "/mlb" ++ path)
                                        [(AUTHORIZATION, _authHeader base)]) paths)%list.
Proof.
  split.
  - unfold MlbApi.constructor, bind, with_leaguePath.
    destruct (ApiBase.constructor options env w) as [[base | e] w']; reflexivity.
  - intros base Hb.
    assert (Hl : _leaguePath base = EmptyString).
    { change ApiBase.constructor with (construct ApiBaseClass) in Hb.
      rewrite construct_run in Hb.
      destruct (isString _ && isString _); simpl in Hb; [| discriminate].
      injection Hb as <-. reflexivity. }
    split; [exact Hl |].
    intros op arg env_mlb env_base w0 Ht Hnet.
    replace (call_mlb op) with (call op) by (destruct op; reflexivity).
    destruct (call_two_clients op (with_leaguePath "/mlb" base) base arg
                env_mlb env_base w0 Ht Hnet) as (paths & Hr & Hh & He & Hm & Hbase).
    exists paths. repeat split; try assumption.
    rewrite Hbase. f_equal. apply map_ext. intros path.
    unfold request_for, _apiUrl. rewrite Hl. reflexivity.
Qed.

Lemma mlb_is_base_with_league_path_witness :
  _leaguePath (with_leaguePath EmptyString sample_client) = EmptyString
  /\ exists paths,
       fst (call_mlb SeasonalPlayerGamelogs sample_client (Some 0)
              (answering (Resolve sample_response))
              (mkWorld [[("game", VStr "20190924-NYY-TB")]] [] []))
       = fst (call SeasonalPlayerGamelogs (with_leaguePath EmptyString sample_client)
                (Some 0) (answering (Resolve sample_response))
                (mkWorld [[("game", VStr "20190924-NYY-TB")]] [] []))
       /\ issued (snd (call_mlb SeasonalPlayerGamelogs sample_client (Some 0)
                         (answering (Resolve sample_response))
                         (mkWorld [[("game", VStr "20190924-NYY-TB")]] [] [])))
          = ([] ++ map (fun path =>
                          mkRequest GET
                            ("https://api.mysportsfeeds.com/v2.1/pull" ++ "/mlb" ++ path)
                            [(AUTHORIZATION, "Basic a2V5OnNlY3JldA==")]) paths)%list.
Proof.
  destruct (mlb_is_base_with_league_path sample_credentials
              (answering (Resolve sample_response)) empty_world) as [_ H].
  destruct (H (with_leaguePath EmptyString sample_client) eq_refl) as [Hl Hcall].
  split; [exact Hl |].
  destruct (Hcall SeasonalPlayerGamelogs (Some 0)
              (answering (Resolve sample_response))
              (answering (Resolve sample_response))
              (mkWorld [[("game", VStr "20190924-NYY-TB")]] [] [])
              eq_refl (fun _ => eq_refl)) as (paths & Hr & _ & _ & _ & Hm).
  exists paths. split; [exact Hr | exact Hm].
Defined.

(** ** Base64 loses nothing

    The header can be read back: decoding the encoding of a string gives the
    string. *)

Module Base64Facts.

Import Base64.

Ltac euclid := zify; Z.to_euclidean_division_equations; lia.

Lemma value_digit (n : N) : (n < 64)%N -> value (digit n) = Some n.
Proof.
  intros H. destruct n as [| p]; [reflexivity |].
  do 6 (destruct p as [p | p |]; try reflexivity); lia.
Qed.

Lemma digit_not_pad (n : N) : (n < 64)%N -> (digit n =? "=")%char = false.
Proof.
  intros H. destruct n as [| p]; [reflexivity |].
  do 6 (destruct p as [p | p |]; try reflexivity); lia.
Qed.

Lemma byte_bound (a : ascii) : (N_of_ascii a < 256)%N.
Proof. apply N_ascii_bounded. Qed.

(** Three bytes and their four groups. *)
Lemma groups (x y z : N) :
  (x < 256)%N -> (y < 256)%N -> (z < 256)%N ->
  let p := (x / 4)%N in
  let q := ((x mod 4) * 16 + y / 16)%N in
  let r := ((y mod 16) * 4 + z / 64)%N in
  let t := (z mod 64)%N in
  (p < 64 /\ q < 64 /\ r < 64 /\ t < 64
   /\ p * 4 + q / 16 = x /\ (q mod 16) * 16 + r / 4 = y /\ (r mod 4) * 64 + t = z)%N.
Proof. intros Hx Hy Hz p q r t. subst p q r t. repeat split; euclid. Qed.

Lemma decode_block (c1 c2 c3 c4 : ascii) (rest : string) :
  decode (String c1 (String c2 (String c3 (String c4 rest)))) =
  match value c1, value c2 with
  | Some p, Some q =>
      let a := ascii_of_N (p * 4 + q / 16) in
      if (c3 =? "=")%char then
        if (c4 =? "=")%char && (rest =? EmptyString)
        then Some (String a EmptyString) else None
      else
        match value c3 with
        | Some r =>
            let b := ascii_of_N ((q mod 16) * 16 + r / 4) in
            if (c4 =? "=")%char then
              if rest =? EmptyString then Some (String a (String b EmptyString))
              else None
            else
              match value c4, decode rest with
              | Some t, Some tl =>
                  Some (String a (String b
                          (String (ascii_of_N ((r mod 4) * 64 + t)) tl)))
              | _, _ => None
              end
        | None => None
        end
  | _, _ => None
  end.
Proof. reflexivity. Qed.

Lemma decode_encode_1 (a : ascii) :
  decode (encode (String a EmptyString)) = Some (String a EmptyString).
Proof.
  pose proof (byte_bound a) as Ha.
  destruct (groups (N_of_ascii a) 0 0 Ha) as (Hp & Hq & _ & _ & Hx & _ & _);
    try lia.
  cbn [encode]. cbv zeta. rewrite decode_block.
  rewrite N.add_0_r in Hq, Hx.
  rewrite (value_digit _ Hp), (value_digit _ Hq). cbv zeta.
  change ("=" =? "=")%char with true. cbn [andb String.eqb].
  rewrite Hx, ascii_N_embedding. reflexivity.
Qed.

Lemma decode_encode_2 (a b : ascii) :
  decode (encode (String a (String b EmptyString)))
  = Some (String a (String b EmptyString)).
Proof.
  pose proof (byte_bound a) as Ha. pose proof (byte_bound b) as Hb.
  destruct (groups (N_of_ascii a) (N_of_ascii b) 0 Ha Hb)
    as (Hp & Hq & Hr & _ & Hx & Hy & _); try lia.
  cbn [encode]. cbv zeta. rewrite decode_block.
  rewrite N.add_0_r in Hr, Hy.
  rewrite (value_digit _ Hp), (value_digit _ Hq). cbv zeta.
  rewrite (digit_not_pad _ Hr), (value_digit _ Hr). cbv zeta.
  change ("=" =? "=")%char with true. cbn [String.eqb].
  rewrite Hx, Hy, !ascii_N_embedding. reflexivity.
Qed.

Lemma decode_encode_3 (a b c : ascii) (rest : string) :
  decode (encode rest) = Some rest ->
  decode (encode (String a (String b (String c rest))))
  = Some (String a (String b (String c rest))).
Proof.
  intros IH.
  pose proof (byte_bound a) as Ha. pose proof (byte_bound b) as Hb.
  pose proof (byte_bound c) as Hc.
  destruct (groups (N_of_ascii a) (N_of_ascii b) (N_of_ascii c) Ha Hb Hc)
    as (Hp & Hq & Hr & Ht & Hx & Hy & Hz).
  cbn [encode]. cbv zeta. rewrite decode_block.
  rewrite (value_digit _ Hp), (value_digit _ Hq). cbv zeta.
  rewrite (digit_not_pad _ Hr), (value_digit _ Hr). cbv zeta.
  rewrite (digit_not_pad _ Ht), (value_digit _ Ht), IH.
  rewrite Hx, Hy, Hz, !ascii_N_embedding. reflexivity.
Qed.

(** Decoding undoes encoding. *)
Theorem decode_encode (s : string) : decode (encode s) = Some s.
Proof.
  enough (H : decode (encode s) = Some s
              /\ (forall a, decode (encode (String a s)) = Some (String a s))
              /\ (forall a b, decode (encode (String a (String b s)))
                              = Some (String a (String b s)))) by apply H.
  induction s as [| c s (IH0 & IH1 & IH2)].
  - split; [reflexivity |]. split; [apply decode_encode_1 | apply decode_encode_2].
  - split; [apply IH1 |]. split; [intros a; apply IH2 |].
    intros a b. apply decode_encode_3. exact IH0.
Qed.

(** So distinct credentials give distinct headers. *)
Corollary encode_injective (s t : string) : encode s = encode t -> s = t.
Proof.
  intros H. pose proof (decode_encode s) as Hs. rewrite H, decode_encode in Hs.
  congruence.
Qed.

End Base64Facts.

Lemma auth_header_injective (k p k' p' : string) :
  _generateAuthHeader (VStr k) (VStr p) = _generateAuthHeader (VStr k') (VStr p') ->
  k ++ ":" ++ p = k' ++ ":" ++ p'.
Proof.
  unfold _generateAuthHeader. simpl toString. intros H.
  apply append_inv_head in H. apply Base64Facts.encode_injective in H. exact H.
Qed.

(** ** The date token *)

Module MomentFacts.

Import moment.





End MomentFacts.

(** * Further properties of the code *)

(** ** Credentials from the environment *)

(** X1. A client built from [config.newInstance()] exists exactly when both
    [MSF_API_KEY] and [MSF_API_PASSWORD] are set: then every constructor
    returns the instance whose header encodes [key:password]; with either
    variable unset it throws, and the world is as it was. *)
Theorem credentials_from_environment
        (cls : ClientClass) (penv : ProcessEnv) (env : Env) (w : World) :
  construct cls (config.mySportsFeeds (config.newInstance penv)) env w =
  match penv "MSF_API_KEY", penv "MSF_API_PASSWORD" with
  | Some key, Some password =>
      (Return (mkClient ("Basic " ++ Base64.encode (key ++ ":" ++ password))
                        (baseUrl_of cls) (leaguePath_of cls)),
       w)
  | _, _ => (Throw (IllegalArgumentError None), w)
  end.
Proof.
  rewrite construct_run. unfold config.newInstance, env_var. simpl.
  destruct (penv "MSF_API_KEY"); destruct (penv "MSF_API_PASSWORD"); reflexivity.
Qed.

(** ** The URL of a request, in full *)

Lemma get_enter_mutated (k k' : string) (arg : option Ref) (w : World) :
  k' <> k ->
  get k' (deref (fst (enter arg w))
                (heap (mutate (fst (enter arg w)) (delete k) (snd (enter arg w)))))
  = get k' (options_of arg w).
Proof.
  intros H. rewrite deref_mutate_delete, get_delete_other by exact H.
  rewrite enter_options. reflexivity.
Qed.

(** The path a method computes, as a function of the options it finds. *)
Lemma path_of_value (op : Operation) (arg : option Ref) (env : Env)
      (w w1 : World) (path : string) :
  path_of op arg env w = (Return path, w1) ->
  path = stem op (options_of arg w) (today env)
         ++ query (remaining op (options_of arg w)).
Proof.
  destruct op; simpl path_of; intros P.
  - rewrite seasonGames_path_run in P.
    rewrite deref_mutate_delete, enter_options in P.
    injection P as <- _. reflexivity.
  - rewrite dailyGames_path_run in P.
    rewrite (get_enter_mutated "season" "date") in P by discriminate.
    rewrite !deref_mutate_delete, enter_options in P.
    injection P as <- _. reflexivity.
  - rewrite seasonalPlayerGamelogs_path_run in P.
    destruct (isString _); [| discriminate].
    rewrite deref_mutate_delete, enter_options in P.
    injection P as <- _. reflexivity.
Qed.




Example request_url_in_full_run :
  issued (snd (call DailyGames sample_client (Some 0)
                 (answering (Resolve sample_response))
                 (mkWorld [[("team", VStr "NYY"); ("season", VInt 2019);
                            ("force", VBool true)]] [] [])))
  = [mkRequest "GET"
       "https://api.mysportsfeeds.com/v2.1/pull/mlb/2019/date/20190924/games.json?team=NYY&force=true"
       [("Authorization", "Basic a2V5OnNlY3JldA==")]].
Proof. reflexivity. Qed.

(** ** The season token *)





(** ** Calls without options *)

Lemma heap_after_send_for_body (this : Client) (u : string) (env : Env) (w : World) :
  heap (snd (send_for_body this u env w)) = heap w.
Proof. rewrite send_for_body_run. cbv zeta. destruct (transport env _); reflexivity. Qed.

Lemma heap_after_send_for_response (this : Client) (u : string) (env : Env) (w : World) :
  heap (snd (ApiBase_v1_2.send_for_response this u env w)) = heap w.
Proof. rewrite send_for_response_run. cbv zeta. destruct (transport env _); reflexivity. Qed.

Lemma mutate_fresh (k : string) (w : World) :
  mutate (length (heap w)) (delete k)
         (mkWorld (heap w ++ [[]]) (issued w) (stderr w))
  = mkWorld (heap w ++ [[]]) (issued w) (stderr w).
Proof.
  unfold mutate. cbn [heap issued stderr]. rewrite deref_fresh. cbn [delete].
  f_equal. induction (heap w) as [| x h IH]; simpl; [reflexivity |].
  rewrite IH. reflexivity.
Qed.

Lemma heap_after_default_call (op : Operation) (this : Client) (env : Env) (w : World) :
  heap (snd (call op this None env w)) = (heap w ++ [[]])%list.
Proof.
  rewrite call_factor. unfold bind.
  assert (H : heap (snd (path_of op None env w)) = (heap w ++ [[]])%list).
  { assert (D : forall k, store (length (heap w)) (delete k []) (heap w ++ [[]])
                          = (heap w ++ [[]])%list).
    { intros k. simpl. induction (heap w) as [| x h IH]; simpl; [reflexivity |].
      rewrite IH. reflexivity. }
    destruct op; simpl path_of.
    - rewrite seasonGames_path_run. simpl. rewrite deref_fresh. apply D.
    - rewrite dailyGames_path_run. simpl. rewrite deref_fresh, (D "season").
      rewrite deref_fresh. apply D.
    - rewrite seasonalPlayerGamelogs_path_run.
      destruct (isString _); simpl; rewrite deref_fresh; apply D. }
  destruct (path_of op None env w) as [[path | e] w1]; simpl in H.
  - rewrite heap_after_send_for_body. exact H.
  - exact H.
Qed.

(** X3. Called without options, [seasonGames], [dailyGames],
    [fullGameSchedule] and [dailyGameSchedule] each send one request, to the
    current season and the date of the clock and with no query, and
    [seasonalPlayerGamelogs] throws; each call makes one empty object and
    leaves the objects of the caller as they were. *)
Theorem calls_without_options (this : Client) (env : Env) (w : World) :
  (forall op, heap (snd (call_any op this None env w)) = (heap w ++ [[]])%list)
  /\ issued (snd (ApiBase.seasonGames this None env w))
     = (issued w ++ [request_for this "/current/games.json"])%list
  /\ issued (snd (ApiBase.dailyGames this None env w))
     = (issued w
        ++ [request_for this
              ("/current/date/" ++ moment.format_YYYYMMDD (today env) ++ "/games.json")])%list
  /\ ApiBase.seasonalPlayerGamelogs this None env w
     = (Throw (IllegalArgumentError (Some game_is_required)),
        mkWorld (heap w ++ [[]]) (issued w) (stderr w))
  /\ issued (snd (ApiBase_v1_2.fullGameSchedule this None env w))
     = (issued w ++ [request_for this "/current/full_game_schedule.json"])%list
  /\ issued (snd (ApiBase_v1_2.dailyGameSchedule this None env w))
     = (issued w
        ++ [request_for this
              ("current/daily_game_schedule.json?forDate="
               ++ moment.format_YYYYMMDD (today env))])%list.
Proof.
  split; [| split; [| split; [| split; [| split]]]].
  - intros [op | op]; simpl call_any.
    + apply heap_after_default_call.
    + destruct op; simpl call_v1_2.
      * rewrite fullGameSchedule_run. apply heap_after_send_for_response.
      * rewrite dailyGameSchedule_run. apply heap_after_send_for_response.
  - change ApiBase.seasonGames with (call SeasonGames).
    destruct (path_of SeasonGames None env w) as [[path | e] w1] eqn:P.
    + rewrite (call_sends_path _ this None env w w1 path P).
      rewrite (path_of_value _ None env w w1 path P). reflexivity.
    + simpl in P. rewrite seasonGames_path_run in P. discriminate.
  - change ApiBase.dailyGames with (call DailyGames).
    destruct (path_of DailyGames None env w) as [[path | e] w1] eqn:P.
    + rewrite (call_sends_path _ this None env w w1 path P).
      rewrite (path_of_value _ None env w w1 path P).
      unfold stem, option_or, remaining, query. cbn -[moment.format_YYYYMMDD].
      rewrite append_assoc. reflexivity.
    + simpl in P. rewrite dailyGames_path_run in P. discriminate.
  - change ApiBase.seasonalPlayerGamelogs with (call SeasonalPlayerGamelogs).
    rewrite call_factor. unfold bind. simpl path_of.
    rewrite seasonalPlayerGamelogs_path_run, gamelogs_game_seen. simpl.
    rewrite mutate_fresh. reflexivity.
  - rewrite fullGameSchedule_run.
    apply send_for_response_issued. reflexivity.
  - rewrite dailyGameSchedule_run.
    rewrite (send_for_response_issued this _ env w (snd (enter None w)) eq_refl).
    reflexivity.
Qed.

(** ** The options object across calls *)

Lemma lookup_remaining (op : Operation) (k : string) (o : JsObject) :
  lookup k (remaining op o)
  = if mem k (deleted_keys op) then None else lookup k o.
Proof. apply lookup_delete_keys. Qed.




Lemma object_after_call (op : Operation) (this : Client) (l : Ref)
      (env : Env) (w : World) :
  deref l (heap (snd (call op this (Some l) env w))) = remaining op (deref l (heap w)).
Proof. rewrite heap_after_call. apply deref_mutate_keys. Qed.




Example second_call_uses_defaults_run :
  issued (snd (call DailyGames sample_client (Some 0)
                 (mkEnv (fun _ => Resolve sample_response) (moment.mkDate 2019 9 25))
                 (snd (call DailyGames sample_client (Some 0)
                         (answering (Resolve sample_response))
                         (mkWorld [[("season", VStr "2018-regular");
                                    ("date", VInt 20180401);
                                    ("team", VStr "NYY")]] [] [])))))
  = [request_for sample_client "/2018-regular/date/20180401/games.json?team=NYY";
     request_for sample_client "/current/date/20190925/games.json?team=NYY"].
Proof. reflexivity. Qed.



Example season_passed_to_seasonGames :
  issued (snd (call SeasonGames sample_client (Some 0)
                 (answering (Resolve sample_response))
                 (mkWorld [[("season", VStr "2019-regular")]] [] [])))
  = [request_for sample_client "/current/games.json?season=2019-regular"].
Proof. reflexivity. Qed.

(** X7. [seasonalPlayerGamelogs] deletes [season] from the caller's object
    before it checks [game]: a call that throws for want of a string [game]
    has still removed the key. *)
Theorem failed_gamelogs_call_still_deletes_season
        (this : Client) (l : Ref) (env : Env) (w : World) :
  isString (get "game" (deref l (heap w))) = false ->
  fst (ApiBase.seasonalPlayerGamelogs this (Some l) env w)
  = Throw (IllegalArgumentError (Some game_is_required))
  /\ heap (snd (ApiBase.seasonalPlayerGamelogs this (Some l) env w))
     = store l (delete "season" (deref l (heap w))) (heap w)
  /\ lookup "season"
       (deref l (heap (snd (ApiBase.seasonalPlayerGamelogs this (Some l) env w))))
     = None.
Proof.
  intros Hg.
  change ApiBase.seasonalPlayerGamelogs with (call SeasonalPlayerGamelogs).
  split; [| split].
  - rewrite call_factor. unfold bind. simpl path_of.
    rewrite seasonalPlayerGamelogs_path_run, gamelogs_game_seen.
    cbn [options_of]. rewrite Hg. reflexivity.
  - rewrite heap_after_call. reflexivity.
  - rewrite object_after_call, lookup_remaining. reflexivity.
Qed.

Lemma failed_gamelogs_call_still_deletes_season_witness :
  fst (ApiBase.seasonalPlayerGamelogs sample_client (Some 0)
         (answering (Resolve sample_response))
         (mkWorld [[("season", VStr "2019-regular"); ("team", VStr "NYY")]] [] []))
  = Throw (IllegalArgumentError (Some game_is_required))
  /\ heap (snd (ApiBase.seasonalPlayerGamelogs sample_client (Some 0)
                  (answering (Resolve sample_response))
                  (mkWorld [[("season", VStr "2019-regular"); ("team", VStr "NYY")]] [] [])))
     = store 0 (delete "season" [("season", VStr "2019-regular"); ("team", VStr "NYY")])
             [[("season", VStr "2019-regular"); ("team", VStr "NYY")]]
  /\ lookup "season"
       (deref 0 (heap (snd (ApiBase.seasonalPlayerGamelogs sample_client (Some 0)
                             (answering (Resolve sample_response))
                             (mkWorld [[("season", VStr "2019-regular");
                                        ("team", VStr "NYY")]] [] [])))))
     = None.
Proof.
  apply (failed_gamelogs_call_still_deletes_season sample_client 0
           (answering (Resolve sample_response))
           (mkWorld [[("season", VStr "2019-regular"); ("team", VStr "NYY")]] [] [])).
  reflexivity.
Defined.

(** ** When a request is sent, and what comes back *)

Lemma not_sent (A : Type) (xs : list A) (x : A) : xs <> (xs ++ [x])%list.
Proof.
  intros H. rewrite <- (app_nil_r xs) in H at 1.
  apply app_inv_head in H. discriminate.
Qed.

(** X9. When the transport resolves the request of a call, a method of
    api-base.js returns the body of the response and a method of the earlier
    client returns the response, and nothing is written to standard error. *)
Theorem resolved_request_returns_quietly
        (op : AnyOperation) (this : Client) (arg : option Ref)
        (env : Env) (w : World) (req : Request) (res : Response) :
  issued (snd (call_any op this arg env w)) = (issued w ++ [req])%list ->
  transport env req = Resolve res ->
  fst (call_any op this arg env w)
  = Return (match op with
            | Current _ => RJson (body res)
            | Earlier _ => RResponse res
            end)
  /\ stderr (snd (call_any op this arg env w)) = stderr w.
Proof.
  destruct (call_any_ran op this arg env w)
    as [e w' Hi _ _ | u res0 w' T Hi He | u err w' T Hi _]; cbn [fst snd];
    intros Hreq Hres.
  - rewrite Hi in Hreq. apply not_sent in Hreq. contradiction.
  - rewrite Hi in Hreq. apply app_inv_head in Hreq. injection Hreq as <-.
    rewrite T in Hres. injection Hres as <-. split; [reflexivity | exact He].
  - rewrite Hi in Hreq. apply app_inv_head in Hreq. injection Hreq as <-. congruence.
Qed.

Lemma resolved_request_returns_quietly_witness :
  fst (call_any (Current SeasonGames) sample_client None
         (answering (Resolve sample_response)) empty_world)
  = Return (RJson (body sample_response))
  /\ stderr (snd (call_any (Current SeasonGames) sample_client None
                    (answering (Resolve sample_response)) empty_world))
     = [].
Proof.
  apply (resolved_request_returns_quietly (Current SeasonGames) sample_client None
           (answering (Resolve sample_response)) empty_world
           (request_for sample_client "/current/games.json") sample_response);
    reflexivity.
Defined.

(** X10. The [null] a call returns does not tell failure from an empty
    answer: a method of api-base.js that has sent its request returns [null]
    exactly when the transport rejects it or resolves it with a body that is
    [null]; a method of the earlier client returns [null] only on rejection. *)
Theorem null_result_is_ambiguous
        (op : AnyOperation) (this : Client) (arg : option Ref)
        (env : Env) (w : World) (req : Request) :
  issued (snd (call_any op this arg env w)) = (issued w ++ [req])%list ->
  (fst (call_any op this arg env w) = Return null
   <-> ((exists err, transport env req = Reject err)
        \/ (exists res, transport env req = Resolve res
                        /\ body res = JNull
                        /\ exists o, op = Current o))).
Proof.
  destruct (call_any_ran op this arg env w)
    as [e w' Hi _ _ | u res0 w' T Hi He | u err w' T Hi _]; cbn [fst snd];
    intros Hreq.
  - rewrite Hi in Hreq. apply not_sent in Hreq. contradiction.
  - rewrite Hi in Hreq. apply app_inv_head in Hreq. injection Hreq as <-.
    split.
    + intros H. right. exists res0. split; [exact T |].
      destruct op as [o | o]; simpl in H; [| discriminate].
      unfold null in H. injection H as H. split; [exact H | exists o; reflexivity].
    + intros [[err H] | (res & H & Hb & o & ->)]; [congruence |].
      rewrite T in H. injection H as <-. simpl. rewrite Hb. reflexivity.
  - rewrite Hi in Hreq. apply app_inv_head in Hreq. injection Hreq as <-.
    split; [| reflexivity]. intros _. left. exists err. exact T.
Qed.

Lemma null_result_is_ambiguous_witness :
  fst (call_any (Current SeasonGames) sample_client None
         (answering (Resolve (mkResponse 200 "null" JNull))) empty_world)
  = Return null
  <-> ((exists err,
           transport (answering (Resolve (mkResponse 200 "null" JNull)))
             (request_for sample_client "/current/games.json") = Reject err)
       \/ (exists res,
              transport (answering (Resolve (mkResponse 200 "null" JNull)))
                (request_for sample_client "/current/games.json") = Resolve res
              /\ body res = JNull
              /\ exists o, Current SeasonGames = Current o)).
Proof.
  apply (null_result_is_ambiguous (Current SeasonGames) sample_client None
           (answering (Resolve (mkResponse 200 "null" JNull))) empty_world
           (request_for sample_client "/current/games.json")).
  reflexivity.
Defined.

(** ** The earlier methods *)

(** X11. [fullGameSchedule] and [dailyGameSchedule] change no object of the
    caller, and their one request is decided by [seasonName] and [forDate] (and
    the clock) alone: options that agree on these two give the same request,
    whatever else they hold. *)
Theorem earlier_methods_read_two_options
        (op : Operation_v1_2) (this : Client) (l1 l2 : Ref)
        (env : Env) (w1 w2 : World) :
  get "seasonName" (deref l1 (heap w1)) = get "seasonName" (deref l2 (heap w2)) ->
  get "forDate" (deref l1 (heap w1)) = get "forDate" (deref l2 (heap w2)) ->
  exists req,
    issued (snd (call_v1_2 op this (Some l1) env w1)) = (issued w1 ++ [req])%list
    /\ issued (snd (call_v1_2 op this (Some l2) env w2)) = (issued w2 ++ [req])%list
    /\ heap (snd (call_v1_2 op this (Some l1) env w1)) = heap w1
    /\ heap (snd (call_v1_2 op this (Some l2) env w2)) = heap w2.
Proof.
  intros Hs Hd. destruct op; simpl call_v1_2.
  - rewrite !fullGameSchedule_run. cbn [options_of enter snd]. rewrite Hs.
    eexists. rewrite !heap_after_send_for_response.
    rewrite (send_for_response_issued this _ env w1 w1 eq_refl).
    rewrite (send_for_response_issued this _ env w2 w2 eq_refl).
    repeat split; reflexivity.
  - rewrite !dailyGameSchedule_run. cbn [options_of enter snd]. rewrite Hs, Hd.
    eexists. rewrite !heap_after_send_for_response.
    rewrite (send_for_response_issued this _ env w1 w1 eq_refl).
    rewrite (send_for_response_issued this _ env w2 w2 eq_refl).
    repeat split; reflexivity.
Qed.

Lemma earlier_methods_read_two_options_witness :
  exists req,
    issued (snd (call_v1_2 FullGameSchedule sample_client_v1_2 (Some 0)
                   (answering (Resolve sample_response))
                   (mkWorld [[("seasonName", VStr "2018"); ("team", VStr "NYY")];
                             [("seasonName", VStr "2018")]] [] [])))
    = ([] ++ [req])%list
    /\ issued (snd (call_v1_2 FullGameSchedule sample_client_v1_2 (Some 1)
                      (answering (Resolve sample_response))
                      (mkWorld [[("seasonName", VStr "2018"); ("team", VStr "NYY")];
                                [("seasonName", VStr "2018")]] [] [])))
       = ([] ++ [req])%list
    /\ heap (snd (call_v1_2 FullGameSchedule sample_client_v1_2 (Some 0)
                    (answering (Resolve sample_response))
                    (mkWorld [[("seasonName", VStr "2018"); ("team", VStr "NYY")];
                              [("seasonName", VStr "2018")]] [] [])))
       = [[("seasonName", VStr "2018"); ("team", VStr "NYY")]; [("seasonName", VStr "2018")]]
    /\ heap (snd (call_v1_2 FullGameSchedule sample_client_v1_2 (Some 1)
                    (answering (Resolve sample_response))
                    (mkWorld [[("seasonName", VStr "2018"); ("team", VStr "NYY")];
                              [("seasonName", VStr "2018")]] [] [])))
       = [[("seasonName", VStr "2018"); ("team", VStr "NYY")]; [("seasonName", VStr "2018")]].
Proof.
  apply (earlier_methods_read_two_options FullGameSchedule sample_client_v1_2 0 1
           (answering (Resolve sample_response))
           (mkWorld [[("seasonName", VStr "2018"); ("team", VStr "NYY")];
                     [("seasonName", VStr "2018")]] [] [])
           (mkWorld [[("seasonName", VStr "2018"); ("team", VStr "NYY")];
                     [("seasonName", VStr "2018")]] [] []));
    reflexivity.
Defined.

(** ** The characters of the header, of the date and of the query *)


Lemma string_forall_impl (p q : ascii -> bool) (s : string) :
  (forall c, p c = true -> q c = true) ->
  string_forall p s = true -> string_forall q s = true.
Proof.
  intros H. induction s as [| c s IH]; simpl; [reflexivity |].
  intros Hs. apply andb_prop in Hs. destruct Hs as [Hc Hs].
  rewrite (H c Hc), (IH Hs). reflexivity.
Qed.

Lemma get_occurs (s : string) (k : nat) (c : ascii) :
  String.get k s = Some c -> occurs c s = true.
Proof.
  revert k. induction s as [| c' s IH]; intros k H; simpl in H; [discriminate |].
  simpl. destruct k as [| k].
  - injection H as ->. rewrite Ascii.eqb_refl. reflexivity.
  - rewrite (IH k H). apply orb_true_r.
Qed.

Lemma base64_char_digit (n : N) : base64_char (Base64.digit n) = true.
Proof.
  unfold base64_char, Base64.digit.
  destruct (String.get (N.to_nat n) Base64.alphabet) as [c |] eqn:E.
  - rewrite (get_occurs _ _ _ E). reflexivity.
  - apply orb_true_r.
Qed.

(** A property of strings proved three characters at a time. *)
Lemma by_three (P : string -> Prop) :
  P EmptyString ->
  (forall a, P (String a EmptyString)) ->
  (forall a b, P (String a (String b EmptyString))) ->
  (forall a b c s, P s -> P (String a (String b (String c s)))) ->
  forall s, P s.
Proof.
  intros H0 H1 H2 H3 s.
  enough (H : P s /\ (forall a, P (String a s)) /\ (forall a b, P (String a (String b s))))
    by apply H.
  induction s as [| c s (IH0 & IH1 & IH2)].
  - split; [exact H0 |]. split; [exact H1 | exact H2].
  - split; [apply IH1 |]. split; [intros a; apply IH2 |].
    intros a b. apply H3. exact IH0.
Qed.

Lemma encode_base64_chars (s : string) :
  string_forall base64_char (Base64.encode s) = true.
Proof.
  induction s as [| a | a b | a b c s IH] using by_three;
    cbn [Base64.encode]; cbv zeta; cbn [string_forall];
    rewrite ?base64_char_digit, ?IH; reflexivity.
Qed.

Lemma length_encode (s : string) :
  String.length (Base64.encode s) = 4 * ((String.length s + 2) / 3).
Proof.
  induction s as [| a | a b | a b c s IH] using by_three;
    try reflexivity.
  cbn [Base64.encode]. cbv zeta. cbn [String.length]. rewrite IH.
  replace (S (S (S (String.length s))) + 2) with ((String.length s + 2) + 1 * 3) by lia.
  rewrite Nat.div_add by lia. lia.
Qed.

(** X12. For string credentials the header is [Basic ] followed by a text of
    the base64 alphabet and padding only, four characters for every three
    bytes of [key:password] (rounded up), that decodes to [key:password]: no
    character of a credential reaches the header as it is. *)
Theorem auth_header_payload (apiKey password : string) :
  exists payload,
    _generateAuthHeader (VStr apiKey) (VStr password) = "Basic " ++ payload
    /\ string_forall base64_char payload = true
    /\ String.length payload
       = 4 * ((String.length apiKey + 1 + String.length password + 2) / 3)
    /\ Base64.decode payload = Some (apiKey ++ ":" ++ password).
Proof.
  exists (Base64.encode (apiKey ++ ":" ++ password)).
  split; [reflexivity |]. split; [apply encode_base64_chars |].
  split; [| apply Base64Facts.decode_encode].
  rewrite length_encode, !length_append. cbn [String.length].
  rewrite Nat.add_assoc. reflexivity.
Qed.

Lemma split_at_colon (k k' p p' : string) :
  occurs ":" k = false -> occurs ":" k' = false ->
  k ++ ":" ++ p = k' ++ ":" ++ p' -> k = k' /\ p = p'.
Proof.
  revert k'. induction k as [| c k IH]; intros [| c' k'] Hk Hk' H; simpl in *.
  - injection H as H. split; [reflexivity | exact H].
  - injection H as Hc _. subst c'. rewrite Ascii.eqb_refl in Hk'. discriminate.
  - injection H as Hc _. subst c. rewrite Ascii.eqb_refl in Hk. discriminate.
  - injection H as Hc H. subst c'.
    apply orb_false_elim in Hk. apply orb_false_elim in Hk'.
    destruct (IH k' (proj2 Hk) (proj2 Hk') H) as [-> ->]. split; reflexivity.
Qed.

(** X13. The header identifies the text [key:password] and no more: moving a
    colon between key and password gives the same header, and two pairs of
    credentials whose keys hold no colon have the same header only when they
    are the same pair. *)
Theorem auth_header_identifies_credentials :
  (forall key middle password : string,
      _generateAuthHeader (VStr (key ++ ":" ++ middle)) (VStr password)
      = _generateAuthHeader (VStr key) (VStr (middle ++ ":" ++ password)))
  /\ (forall key password key' password' : string,
        occurs ":" key = false -> occurs ":" key' = false ->
        _generateAuthHeader (VStr key) (VStr password)
        = _generateAuthHeader (VStr key') (VStr password') ->
        key = key' /\ password = password').
Proof.
  split.
  - intros key middle password. unfold _generateAuthHeader. cbn [toString].
    rewrite !append_assoc. reflexivity.
  - intros key password key' password' Hk Hk' H.
    apply (split_at_colon key key' password password' Hk Hk').
    unfold _generateAuthHeader in H. cbn [toString] in H.
    apply append_inv_head in H. apply Base64Facts.encode_injective. exact H.
Qed.

Lemma auth_header_identifies_credentials_witness :
  _generateAuthHeader (VStr ("team" ++ ":" ++ "a")) (VStr "secret")
  = _generateAuthHeader (VStr "team") (VStr ("a" ++ ":" ++ "secret"))
  /\ ("key" = "key" /\ "secret" = "secret").
Proof.
  destruct auth_header_identifies_credentials as [Hmove Hsame].
  split.
  - apply Hmove.
  - apply (Hsame "key" "secret" "key" "secret"); reflexivity.
Defined.














Example query_is_percent_encoded_run :
  issued (snd (call SeasonGames sample_client (Some 0)
                 (answering (Resolve sample_response))
                 (mkWorld [[("team", VStr "a/b c#")]] [] [])))
  = [request_for sample_client "/current/games.json?team=a%2Fb%20c%23"].
Proof. reflexivity. Qed.
